(** * PrChecker: the pull-request check gate of kiali-bot

    A shallow embedding of [src/behaviors/PrChecker.ts].  The behaviour is a
    set of asynchronous webhook handlers that talk to the GitHub API; it is
    modelled here as computations in a small monad that threads

    - the trace of outbound API requests,
    - the lines written to the application log, and
    - the settlements of promises that were started but never awaited,

    and that ends either by returning or by throwing (a rejected promise).
    The GitHub API, the process environment and the two helpers of
    [utils/OctokitUtils] are collected in an environment record [Env]. *)

From stdpp Require Import gmap strings list pretty.
From Stdlib Require Import ZArith.

Local Open Scope Z_scope.
Local Open Scope string_scope.
Local Open Scope list_scope.

(** ** Data exchanged with GitHub *)

Inductive CheckStatus := queued | in_progress | completed.
Inductive CheckConclusion := success | failure.

(** What [context.repo()] contributes to every request. *)
Record Repo := mkRepo { owner : string; repo : string }.

(** The [{number}] records standing for pull requests of a commit. *)
Record PrRef := mkPrRef { number : Z }.

(** [PullsListReviewsResponseItem], restricted to the fields read. *)
Record Review := mkReview { user_login : string; state : string }.

(** The data of [pulls.get], restricted to [data.user.login]. *)
Record PullRequest := mkPullRequest { pr_user_login : string }.

Record Response (A : Type) := mkResponse { status : Z; data : A }.
Arguments mkResponse {A} _ _.
Arguments status {A} _.
Arguments data {A} _.

(** [WebhookPayloadCheckRunCheckRun]. *)
Record CheckRun := mkCheckRun {
  cr_id : Z;
  cr_app_id : Z;
  cr_name : string;
  cr_head_sha : string;
  cr_status : string;
  cr_pull_requests : list PrRef
}.

(** [Context<WebhookPayloadCheckRun>]. *)
Record CheckRunContext := mkCheckRunContext {
  crc_repo : Repo;
  check_run : CheckRun
}.

(** [Context<WebhookPayloadPullRequest>]. *)
Record PullRequestContext := mkPullRequestContext {
  prc_repo : Repo;
  prc_number : Z;
  prc_head_sha : string
}.

(** [Context<WebhookPayloadPullRequestReview>]. *)
Record ReviewContext := mkReviewContext {
  rvc_repo : Repo;
  rvc_action : string;
  rvc_review_state : string;
  rvc_review_user_login : string;
  rvc_sender_login : string;
  rvc_number : Z;
  rvc_head_sha : string
}.

(** ** Observable effects *)

(** One outbound request.  The [started_at] and [completed_at] timestamps
    read from the wall clock are not part of the model. *)
Inductive Call :=
| ChecksCreate (r : Repo) (name head_sha : string)
    (st : CheckStatus) (conclusion : option CheckConclusion)
| ChecksUpdate (r : Repo) (check_run_id : Z)
    (st : CheckStatus) (conclusion : option CheckConclusion)
| PullsGet (r : Repo) (n : Z)
| PullsListReviews (r : Repo) (pull_number : Z)
| PrsForCommit (r : Repo) (head_sha : string) (known : list PrRef).

Inductive Level := lvl_trace | lvl_debug | lvl_info | lvl_error.

Record LogEntry := mkLog { level : Level; message : string }.

(** How a call ends: it returns a value or it throws. *)
Inductive Outcome (A : Type) := Returned (a : A) | Thrown.
Arguments Returned {A} _.
Arguments Thrown {A}.

Record World := mkWorld {
  trace : list Call;
  logged : list LogEntry;
  unawaited : list (Outcome unit)
}.

Definition initial : World := mkWorld [] [] [].

(** ** The monad of handlers *)

Definition M (A : Type) : Type := World -> Outcome A * World.

Definition ret {A} (a : A) : M A := fun w => (Returned a, w).

Definition throw {A} : M A := fun w => (Thrown, w).

Definition bind {A B} (m : M A) (k : A -> M B) : M B :=
  fun w =>
    match m w with
    | (Returned a, w') => k a w'
    | (Thrown, w') => (Thrown, w')
    end.

Notation "'let*' x ':=' m 'in' k" := (bind m (fun x => k))
  (at level 10, x name, m at level 100, k at level 200).
Notation "m '>>' k" := (bind m (fun _ => k))
  (at level 100, k at level 200, right associativity).

(** [await api(...)]: the request is recorded, then its outcome is observed. *)
Definition call {A} (c : Call) (o : Outcome A) : M A :=
  fun w => (o, mkWorld (trace w ++ [c]) (logged w) (unawaited w)).

Definition log (l : Level) (msg : string) : M unit :=
  fun w => (Returned tt, mkWorld (trace w) (logged w ++ [mkLog l msg]) (unawaited w)).

Definition logs (ls : list LogEntry) : M unit :=
  fun w => (Returned tt, mkWorld (trace w) (logged w ++ ls) (unawaited w)).

(** [try { body } catch { handler }]. *)
Definition try_catch {A} (body handler : M A) : M A :=
  fun w =>
    match body w with
    | (Returned a, w') => (Returned a, w')
    | (Thrown, w') => handler w'
    end.

(** [try { body } finally { fin }]: the finalizer runs on both exits and the
    exception of the body, if any, is thrown again after it. *)
Definition try_finally {A} (body : M A) (fin : M unit) : M A :=
  fun w =>
    match body w with
    | (o, w') =>
        match fin w' with
        | (Returned _, w'') => (o, w'')
        | (Thrown, w'') => (Thrown, w'')
        end
    end.

(** An async function called without [await]: it runs, its settlement is
    kept aside, and the caller goes on whatever that settlement is. *)
Definition unawaited_call (m : M unit) : M unit :=
  fun w =>
    match m w with
    | (o, w') => (Returned tt, mkWorld (trace w') (logged w') (unawaited w' ++ [o]))
    end.

(** How a block inside an async function is left: by falling off its end,
    by [return;], or by [return p] for a promise [p].  In the last case the
    function's own promise adopts [p]: the settlement of [p] is observed
    after the enclosing [try] has been left. *)
Inductive Completion :=
| Normal
| ReturnVoid
| ReturnPromise (p : M unit).

Definition settle (c : Completion) : M unit :=
  match c with
  | Normal | ReturnVoid => ret tt
  | ReturnPromise p => p
  end.

(** ** The environment *)

(** What a response check of [utils/OctokitUtils] does: it may log, and it
    may throw. *)
Record CheckEffect := mkCheckEffect {
  ce_logs : list LogEntry;
  ce_throws : bool
}.

Definition run_check (e : CheckEffect) : M unit :=
  logs (ce_logs e) >> if ce_throws e then throw else ret tt.

Record Env := mkEnv {
  (** [Number(process.env.APP_ID)]; [None] stands for [NaN] *)
  APP_ID : option Z;
  (** [process.env.KIALI_BOT_USER]; [None] stands for [undefined] *)
  KIALI_BOT_USER : option string;
  (** [github.checks.create] *)
  checks_create :
    Repo -> string -> string -> CheckStatus -> option CheckConclusion ->
    Outcome (Response unit);
  (** [github.checks.update] *)
  checks_update :
    Repo -> Z -> CheckStatus -> option CheckConclusion -> Outcome (Response unit);
  (** [github.pulls.get] *)
  pulls_get : Repo -> Z -> Outcome (Response PullRequest);
  (** [github.paginate.iterator] over [pulls.listReviews]: the pages in the
      order they are delivered; a [Thrown] page is a request that fails *)
  pulls_listReviews : Repo -> Z -> list (Outcome (Response (list Review)));
  (** [getOrQueryPrsForCommit] of [utils/PrQueries] *)
  getOrQueryPrsForCommit : Repo -> string -> list PrRef -> Outcome (list PrRef);
  (** [checkResponseStatus(response, expected, message, fields)] *)
  checkResponseStatus : Z -> Z -> string -> CheckEffect;
  (** [checkResponseWith(response, {logFields: {phase, ...}})] *)
  checkResponseWith : option string -> Z -> CheckEffect
}.

(** ** PrChecker *)

Definition CHECK_NAME : string := "Kiali - PR".

(** The double-quote character, for log lines that quote a word. *)
Definition dquote : string := String (Ascii.ascii_of_nat 34) EmptyString.

(** The list returned by [findQeUsers]. *)
Definition qeUsers : list string := ["edgarHzg"; "israel-hdez"].

Definition findQeUsers : M (list string) := ret qeUsers.

Definition includes (l : list string) (s : string) : bool :=
  existsb (String.eqb s) l.

Definition isOwnedCheckRun (env : Env) (checkRun : CheckRun) : M bool :=
  if negb (bool_decide (Some (cr_app_id checkRun) = APP_ID env))
     && negb (String.eqb (cr_name checkRun) CHECK_NAME)
  then
    log lvl_trace ("Check run " +:+ pretty (cr_id checkRun) +:+ " not owned by this behavior") >>
    ret false
  else ret true.

Definition createCheckRun (env : Env) (r : Repo) (head_sha : string) : M unit :=
  try_finally
    (let* response :=
       call (ChecksCreate r CHECK_NAME head_sha queued None)
            (checks_create env r CHECK_NAME head_sha queued None) in
     run_check (checkResponseStatus env (status response) 201 "Failed to create check run"))
    (ret tt).

Definition checkRerequestedHandler (env : Env) (context : CheckRunContext) : M unit :=
  let* owned := isOwnedCheckRun env (check_run context) in
  if negb owned then ret tt
  else
    log lvl_debug "Queuing new PR checks (check run re-requested)" >>
    unawaited_call (createCheckRun env (crc_repo context) (cr_head_sha (check_run context))).

Definition pullRequestEventHandler (env : Env) (context : PullRequestContext) : M unit :=
  log lvl_debug ("Queuing new PR checks (PR " +:+ pretty (prc_number context) +:+ ")") >>
  unawaited_call (createCheckRun env (prc_repo context) (prc_head_sha context)).

Definition pullRequestReviewEventHandler (env : Env) (context : ReviewContext) : M unit :=
  let* c :=
    if (String.eqb (rvc_action context) "edited" || String.eqb (rvc_action context) "submitted")
       && String.eqb (rvc_review_state context) "approved"
    then
      try_finally
        (let* requiredReviews := findQeUsers in
         if includes requiredReviews (rvc_sender_login context) then
           log lvl_debug ("Creating successfull check (PR " +:+ pretty (rvc_number context) +:+ ")") >>
           let* response :=
             call (ChecksCreate (rvc_repo context) CHECK_NAME (rvc_head_sha context)
                     completed (Some success))
                  (checks_create env (rvc_repo context) CHECK_NAME (rvc_head_sha context)
                     completed (Some success)) in
           run_check (checkResponseStatus env (status response) 201
                        ("Failed to create green check_run after approval of PR#"
                           +:+ pretty (rvc_number context)
                           +:+ ". A normal check_run will be queued.")) >>
           ret ReturnVoid
         else ret Normal)
        (ret tt)
    else ret Normal in
  match c with
  | Normal =>
      log lvl_debug ("Queuing new PR checks (PR " +:+ pretty (rvc_number context) +:+ ")") >>
      unawaited_call (createCheckRun env (rvc_repo context) (rvc_head_sha context))
  | _ => settle c
  end.

Definition markBotPrAsOk (env : Env) (context : CheckRunContext) : M unit :=
  let* response :=
    call (ChecksUpdate (crc_repo context) (cr_id (check_run context)) completed (Some success))
         (checks_update env (crc_repo context) (cr_id (check_run context))
            completed (Some success)) in
  run_check (checkResponseWith env None (status response)).

(** The loop "PRs opened by bot should always pass". *)
Fixpoint botPrLoop (env : Env) (context : CheckRunContext) (pull_requests : list PrRef)
  : M Completion :=
  match pull_requests with
  | [] => ret Normal
  | pr :: rest =>
      let* fullPr :=
        call (PullsGet (crc_repo context) (number pr))
             (pulls_get env (crc_repo context) (number pr)) in
      run_check (checkResponseWith env (Some "check bot") (status fullPr)) >>
      if bool_decide (Some (pr_user_login (data fullPr)) = KIALI_BOT_USER env) then
        log lvl_info "Not doing checks on PR because it is owned by the bot user." >>
        ret (ReturnPromise (markBotPrAsOk env context))
      else botPrLoop env context rest
  end.

(** [prReviews[val.user.login] = val.state] on a plain object: assigning a
    string to the key [__proto__] leaves the object as it was. *)
Definition record_review (prReviews : gmap string string) (val : Review)
  : gmap string string :=
  if String.eqb (user_login val) "__proto__" then prReviews
  else <[user_login val := state val]> prReviews.

(** [for await (const reviews of paginate.iterator(...))]. *)
Fixpoint pagesLoop (env : Env) (r : Repo) (pull_number : Z)
    (pages : list (Outcome (Response (list Review))))
    (prReviews : gmap string string) : M (gmap string string) :=
  match pages with
  | [] => ret prReviews
  | page :: rest =>
      let* reviews := call (PullsListReviews r pull_number) page in
      run_check (checkResponseWith env (Some "resolve reviews") (status reviews)) >>
      pagesLoop env r pull_number rest (foldl record_review prReviews (data reviews))
  end.

(** [for await (const pr of pull_requests)]. *)
Fixpoint reviewsLoop (env : Env) (r : Repo) (pull_requests : list PrRef)
    (prReviews : gmap string string) : M (gmap string string) :=
  match pull_requests with
  | [] => ret prReviews
  | pr :: rest =>
      let* prReviews' :=
        pagesLoop env r (number pr) (pulls_listReviews env r (number pr)) prReviews in
      reviewsLoop env r rest prReviews'
  end.

(** Truthiness of a string. *)
Definition truthy (s : string) : bool := negb (String.eqb s "").

(** [prReviews[user] && prReviews[user] === 'APPROVED'] for a key that is
    either absent or an own property. *)
Definition approved_by (prReviews : gmap string string) (user : string) : bool :=
  match prReviews !! user with
  | Some s => truthy s && String.eqb s "APPROVED"
  | None => false
  end.

Definition conclude (qeUsers : list string) (prReviews : gmap string string)
  : CheckConclusion :=
  if existsb (approved_by prReviews) qeUsers then success else failure.

(** The block guarded by the [try] of [doChecks]. *)
Definition doChecks_try (env : Env) (context : CheckRunContext) : M Completion :=
  let r := crc_repo context in
  let cr := check_run context in
  let* pull_requests :=
    call (PrsForCommit r (cr_head_sha cr) (cr_pull_requests cr))
         (getOrQueryPrsForCommit env r (cr_head_sha cr) (cr_pull_requests cr)) in
  let* b := botPrLoop env context pull_requests in
  match b with
  | Normal =>
      let* upd :=
        call (ChecksUpdate r (cr_id cr) in_progress None)
             (checks_update env r (cr_id cr) in_progress None) in
      run_check (checkResponseWith env (Some "Mark in_progress") (status upd)) >>
      let* qeUsers := findQeUsers in
      let* prReviews := reviewsLoop env r pull_requests ∅ in
      let conclusion := conclude qeUsers prReviews in
      let* fin :=
        call (ChecksUpdate r (cr_id cr) completed (Some conclusion))
             (checks_update env r (cr_id cr) completed (Some conclusion)) in
      run_check (checkResponseWith env (Some "mark complete") (status fin)) >>
      ret Normal
  | _ => ret b
  end.

Definition doChecks (env : Env) (context : CheckRunContext) : M unit :=
  let cr := check_run context in
  let* owned := isOwnedCheckRun env cr in
  if negb owned then ret tt
  else if negb (String.eqb (cr_status cr) "queued") then
    log lvl_debug ("Created check run is not " +:+ dquote +:+ "queued" +:+ dquote
                     +:+ ". Not running checks.")
  else
    let* c :=
      try_catch
        (doChecks_try env context)
        (log lvl_error "Error performing check_run" >> ret Normal) in
    settle c.

(** ** The review-state mapping, as a function of what the API delivers *)

(** The pages of a pull request that were delivered, in order. *)
Fixpoint delivered (pages : list (Outcome (Response (list Review)))) : list Review :=
  match pages with
  | [] => []
  | Returned resp :: rest => data resp ++ delivered rest
  | Thrown :: _ => []
  end.

(** All reviews of all associated pull requests, in delivery order. *)
Definition all_reviews (env : Env) (r : Repo) (pull_requests : list PrRef) : list Review :=
  flat_map (fun pr => delivered (pulls_listReviews env r (number pr))) pull_requests.

(** The mapping obtained by folding them, later entries overwriting. *)
Definition review_states (env : Env) (r : Repo) (pull_requests : list PrRef)
  : gmap string string :=
  foldl record_review ∅ (all_reviews env r pull_requests).

(** The requests made while reading the reviews. *)
Definition review_calls (env : Env) (r : Repo) (pull_requests : list PrRef) : list Call :=
  flat_map (fun pr => map (fun _ => PullsListReviews r (number pr))
                          (pulls_listReviews env r (number pr))) pull_requests.

(** ** What it means for the API calls of an evaluation to succeed *)

Definition check_passes (e : CheckEffect) : Prop := ce_throws e = false.

Definition fetch_ok (env : Env) (r : Repo) (pr : PrRef) : Prop :=
  exists resp, pulls_get env r (number pr) = Returned resp
    /\ check_passes (checkResponseWith env (Some "check bot") (status resp)).

Definition bot_authored (env : Env) (r : Repo) (pr : PrRef) : Prop :=
  exists resp, pulls_get env r (number pr) = Returned resp
    /\ Some (pr_user_login (data resp)) = KIALI_BOT_USER env.

Definition page_ok (env : Env) (page : Outcome (Response (list Review))) : Prop :=
  exists resp, page = Returned resp
    /\ check_passes (checkResponseWith env (Some "resolve reviews") (status resp)).

Definition reviews_ok (env : Env) (r : Repo) (pr : PrRef) : Prop :=
  Forall (page_ok env) (pulls_listReviews env r (number pr)).

Definition update_ok (env : Env) (r : Repo) (id : Z) : Prop :=
  exists resp, checks_update env r id in_progress None = Returned resp
    /\ check_passes (checkResponseWith env (Some "Mark in_progress") (status resp)).

Definition owned (env : Env) (cr : CheckRun) : Prop :=
  Some (cr_app_id cr) = APP_ID env \/ cr_name cr = "Kiali - PR".

(** A check-run-created evaluation that reaches the conclusion step: the
    check run is owned and queued, the associated pull requests are
    [pull_requests], none of them is authored by the bot, and every request
    up to the conclusion succeeds. *)
Record reaches_conclusion (env : Env) (context : CheckRunContext)
    (pull_requests : list PrRef) : Prop := mkReaches {
  rc_owned : owned env (check_run context);
  rc_queued : cr_status (check_run context) = "queued";
  rc_lookup :
    getOrQueryPrsForCommit env (crc_repo context) (cr_head_sha (check_run context))
      (cr_pull_requests (check_run context)) = Returned pull_requests;
  rc_fetch : Forall (fetch_ok env (crc_repo context)) pull_requests;
  rc_no_bot : Forall (fun pr => ~ bot_authored env (crc_repo context) pr) pull_requests;
  rc_in_progress : update_ok env (crc_repo context) (cr_id (check_run context));
  rc_reviews : Forall (reviews_ok env (crc_repo context)) pull_requests
}.

(** The requests of an evaluation that reaches the conclusion step and
    finalizes the check run with [conclusion]. *)
Definition evaluation_calls (env : Env) (context : CheckRunContext)
    (pull_requests : list PrRef) (conclusion : CheckConclusion) : list Call :=
  let r := crc_repo context in
  let cr := check_run context in
  PrsForCommit r (cr_head_sha cr) (cr_pull_requests cr)
  :: map (fun pr => PullsGet r (number pr)) pull_requests
  ++ ChecksUpdate r (cr_id cr) in_progress None
  :: review_calls env r pull_requests
  ++ [ChecksUpdate r (cr_id cr) completed (Some conclusion)].

(** The requests of an evaluation that stops at a pull request of the bot,
    after fetching the pull requests [fetched]. *)
Definition bot_shortcut_calls (context : CheckRunContext) (fetched : list PrRef)
  : list Call :=
  let r := crc_repo context in
  let cr := check_run context in
  PrsForCommit r (cr_head_sha cr) (cr_pull_requests cr)
  :: map (fun pr => PullsGet r (number pr)) fetched
  ++ [ChecksUpdate r (cr_id cr) completed (Some success)].

(** Requests that belong to the review evaluation proper: the transition
    to [in_progress] and the reading of reviews. *)
Definition is_review_evaluation (c : Call) : bool :=
  match c with
  | ChecksUpdate _ _ in_progress _ => true
  | PullsListReviews _ _ => true
  | _ => false
  end.

(** The condition of the shortcut of [pullRequestReviewEventHandler]. *)
Definition approved_by_qe_sender (context : ReviewContext) : Prop :=
  (rvc_action context = "edited" \/ rvc_action context = "submitted")
  /\ rvc_review_state context = "approved"
  /\ rvc_sender_login context ∈ qeUsers.

(** ** Sample inputs *)

(** Modelled from the spec: [checkResponseStatus] of [utils/OctokitUtils],
    which is not among the sources.  An unexpected status is logged with
    the message given and is not fatal. *)
Definition logging_checkResponseStatus (st expected : Z) (msg : string) : CheckEffect :=
  mkCheckEffect (if Z.eqb st expected then [] else [mkLog lvl_error msg]) false.

(** Modelled from the spec: [checkResponseWith] of [utils/OctokitUtils],
    which is not among the sources.  An unexpected status is logged and is
    not fatal. *)
Definition logging_checkResponseWith (phase : option string) (st : Z) : CheckEffect :=
  mkCheckEffect
    (if Z.eqb st 200 then [] else [mkLog lvl_error "Unexpected response status"]) false.

Definition sample_repo : Repo := mkRepo "kiali" "kiali-ui".

Definition responds (st : Z) : Outcome (Response unit) := Returned (mkResponse st tt).

(** An API in which check runs are created with outcome [create] and
    updated with outcome [update], pull request [n] is authored by
    [authors n] and has the review pages [reviews n], and the commit is
    associated with the pull requests [prs]. *)
Definition sample_env (create update : Outcome (Response unit))
    (authors : Z -> string) (reviews : Z -> list (list Review)) (prs : list Z) : Env :=
  mkEnv (Some 1234) (Some "kiali-bot")
    (fun _ _ _ _ _ => create)
    (fun _ _ _ _ => update)
    (fun _ n => Returned (mkResponse 200 (mkPullRequest (authors n))))
    (fun _ n => map (fun page => Returned (mkResponse 200 page)) (reviews n))
    (fun _ _ _ => Returned (map mkPrRef prs))
    logging_checkResponseStatus
    logging_checkResponseWith.

Definition sample_check_run : CheckRunContext :=
  mkCheckRunContext sample_repo (mkCheckRun 99 1234 "Kiali - PR" "c0ffee" "queued" []).

Definition sample_review (action review_state author sender : string) : ReviewContext :=
  mkReviewContext sample_repo action review_state author sender 12 "c0ffee".

(** A QE user approves pull request 1. *)
Definition env_approved : Env :=
  sample_env (responds 201) (responds 200) (fun _ => "alice")
    (fun n => if Z.eqb n 1 then [[mkReview "bob" "COMMENTED"];
                                 [mkReview "israel-hdez" "APPROVED"]] else [])
    [1].


(** A QE user approves pull request 1 and comments on pull request 2 of the
    same commit. *)
Definition env_two_prs : Env :=
  sample_env (responds 201) (responds 200) (fun _ => "alice")
    (fun n => if Z.eqb n 1 then [[mkReview "edgarHzg" "APPROVED"]]
              else if Z.eqb n 2 then [[mkReview "edgarHzg" "COMMENTED"]] else [])
    [1; 2].

(** Pull request 2 of three is authored by the bot. *)
Definition env_bot_pr (update : Outcome (Response unit)) : Env :=
  sample_env (responds 201) update
    (fun n => if Z.eqb n 2 then "kiali-bot" else "alice")
    (fun _ => [[mkReview "edgarHzg" "APPROVED"]])
    [1; 2; 3].

(** Creating a check run ends with [create]. *)
Definition env_create (create : Outcome (Response unit)) : Env :=
  sample_env create (responds 200) (fun _ => "alice") (fun _ => []) [1].

(** ** Event registration *)

(** A webhook delivery as the host framework classifies it: the event name
    with the [action] of its payload.  The action of a review event is the
    one of its payload, [rvc_action]. *)
Inductive Event :=
| PullRequestEvent (action : string) (context : PullRequestContext)
| PullRequestReviewEvent (context : ReviewContext)
| CheckRunEvent (action : string) (context : CheckRunContext)
| OtherEvent (name : string).

(** The registrations of the constructor: [app.on('name.action', handler)]
    runs [handler] on the deliveries of that name and action, and nothing
    runs on a delivery that no registration names. *)
Definition on_event (env : Env) (ev : Event) : M unit :=
  match ev with
  | PullRequestEvent action context =>
      if String.eqb action "opened" || String.eqb action "reopened"
      then pullRequestEventHandler env context
      else ret tt
  | CheckRunEvent action context =>
      if String.eqb action "rerequested" then checkRerequestedHandler env context
      else if String.eqb action "created" then doChecks env context
      else ret tt
  | PullRequestReviewEvent context =>
      if String.eqb (rvc_action context) "dismissed"
         || String.eqb (rvc_action context) "submitted"
      then pullRequestReviewEventHandler env context
      else ret tt
  | OtherEvent _ => ret tt
  end.

(** ** Vocabulary for traces *)

(** The check-run updates among some requests, in order. *)
Definition check_updates (calls : list Call)
  : list (CheckStatus * option CheckConclusion) :=
  flat_map (fun c => match c with
                     | ChecksUpdate _ _ st conclusion => [(st, conclusion)]
                     | _ => []
                     end) calls.

(** A request that [doChecks] may make for the check run of [context]: it
    concerns the repository of the event, an update addresses the check run
    of the event, and no check run is created. *)
Definition in_scope (context : CheckRunContext) (c : Call) : Prop :=
  match c with
  | ChecksCreate _ _ _ _ _ => False
  | ChecksUpdate r id _ _ =>
      r = crc_repo context /\ id = cr_id (check_run context)
  | PullsGet r _ => r = crc_repo context
  | PullsListReviews r _ => r = crc_repo context
  | PrsForCommit r head_sha known =>
      r = crc_repo context
      /\ head_sha = cr_head_sha (check_run context)
      /\ known = cr_pull_requests (check_run context)
  end.

(** A page request that fails, by itself or in the check of its response. *)
Definition page_fails (env : Env) (page : Outcome (Response (list Review))) : Prop :=
  page = Thrown
  \/ exists resp, page = Returned resp
       /\ ce_throws (checkResponseWith env (Some "resolve reviews") (status resp)) = true.

(** The fetch of a pull request fails, by itself or in the check of its
    response. *)
Definition fetch_fails (env : Env) (r : Repo) (pr : PrRef) : Prop :=
  pulls_get env r (number pr) = Thrown
  \/ exists resp, pulls_get env r (number pr) = Returned resp
       /\ ce_throws (checkResponseWith env (Some "check bot") (status resp)) = true.

(** The creation of a check run fails, by itself or in the check of its
    response. *)
Definition create_fails (env : Env) (r : Repo) (head_sha : string)
    (st : CheckStatus) (conclusion : option CheckConclusion) (msg : string) : Prop :=
  checks_create env r CHECK_NAME head_sha st conclusion = Thrown
  \/ exists resp, checks_create env r CHECK_NAME head_sha st conclusion = Returned resp
       /\ ce_throws (checkResponseStatus env (status resp) 201 msg) = true.

(** ** More sample inputs *)

(** Only somebody outside the QE list approves. *)
Definition env_outsider_approved : Env :=
  sample_env (responds 201) (responds 200) (fun _ => "alice")
    (fun n => if Z.eqb n 1 then [[mkReview "bob" "APPROVED"; mkReview "edgarHzg" "COMMENTED"]]
              else [])
    [1].

(** A QE user requests changes, then approves. *)
Definition env_reapproved : Env :=
  sample_env (responds 201) (responds 200) (fun _ => "alice")
    (fun n => if Z.eqb n 1 then [[mkReview "edgarHzg" "CHANGES_REQUESTED"];
                                 [mkReview "edgarHzg" "APPROVED";
                                  mkReview "bob" "CHANGES_REQUESTED"]] else [])
    [1].

(** The commit has no pull request. *)
Definition env_no_prs : Env :=
  sample_env (responds 201) (responds 200) (fun _ => "alice") (fun _ => []) [].

(** No bot user is configured, and every update of a check run throws. *)
Definition env_no_bot_user : Env :=
  mkEnv (Some 1234) None
    (fun _ _ _ _ _ => responds 201)
    (fun _ _ _ _ => Thrown)
    (fun _ n => Returned (mkResponse 200 (mkPullRequest "kiali-bot")))
    (fun _ n => [])
    (fun _ _ _ => Returned [mkPrRef 1])
    logging_checkResponseStatus
    logging_checkResponseWith.

(** The second page of reviews of pull request 2 cannot be read. *)
Definition env_page_fails : Env :=
  mkEnv (Some 1234) (Some "kiali-bot")
    (fun _ _ _ _ _ => responds 201)
    (fun _ _ _ _ => responds 200)
    (fun _ n => Returned (mkResponse 200 (mkPullRequest "alice")))
    (fun _ n => if Z.eqb n 2
                then [Returned (mkResponse 200 [mkReview "edgarHzg" "APPROVED"]); Thrown]
                else [Returned (mkResponse 200 [])])
    (fun _ _ _ => Returned [mkPrRef 1; mkPrRef 2; mkPrRef 3])
    logging_checkResponseStatus
    logging_checkResponseWith.

(** Pull request 2 of three cannot be fetched; pull request 3 is authored by
    the bot. *)
Definition env_fetch_fails : Env :=
  mkEnv (Some 1234) (Some "kiali-bot")
    (fun _ _ _ _ _ => responds 201)
    (fun _ _ _ _ => responds 200)
    (fun _ n => if Z.eqb n 2 then Thrown
                else Returned (mkResponse 200
                                 (mkPullRequest (if Z.eqb n 3 then "kiali-bot" else "alice"))))
    (fun _ n => [])
    (fun _ _ _ => Returned [mkPrRef 1; mkPrRef 2; mkPrRef 3])
    logging_checkResponseStatus
    logging_checkResponseWith.

(** A check run of another app under another name. *)
Definition foreign_check_run : CheckRunContext :=
  mkCheckRunContext sample_repo (mkCheckRun 77 5678 "lint" "c0ffee" "queued" []).

(** ** The evaluation with the source of the QE list left open *)

(** The [try] block of [doChecks] in which the call [this.findQeUsers()] is
    an arbitrary computation [find], one that may make requests, log or
    throw.  [doChecks_try] is its instance at [findQeUsers]. *)
Definition doChecks_try_with (find : M (list string)) (env : Env)
    (context : CheckRunContext) : M Completion :=
  let r := crc_repo context in
  let cr := check_run context in
  let* pull_requests :=
    call (PrsForCommit r (cr_head_sha cr) (cr_pull_requests cr))
         (getOrQueryPrsForCommit env r (cr_head_sha cr) (cr_pull_requests cr)) in
  let* b := botPrLoop env context pull_requests in
  match b with
  | Normal =>
      let* upd :=
        call (ChecksUpdate r (cr_id cr) in_progress None)
             (checks_update env r (cr_id cr) in_progress None) in
      run_check (checkResponseWith env (Some "Mark in_progress") (status upd)) >>
      let* qeUsers := find in
      let* prReviews := reviewsLoop env r pull_requests ∅ in
      let conclusion := conclude qeUsers prReviews in
      let* fin :=
        call (ChecksUpdate r (cr_id cr) completed (Some conclusion))
             (checks_update env r (cr_id cr) completed (Some conclusion)) in
      run_check (checkResponseWith env (Some "mark complete") (status fin)) >>
      ret Normal
  | _ => ret b
  end.

(** [doChecks] over [doChecks_try_with find]. *)
Definition doChecks_with (find : M (list string)) (env : Env)
    (context : CheckRunContext) : M unit :=
  let cr := check_run context in
  let* owned := isOwnedCheckRun env cr in
  if negb owned then ret tt
  else if negb (String.eqb (cr_status cr) "queued") then
    log lvl_debug ("Created check run is not " +:+ dquote +:+ "queued" +:+ dquote
                     +:+ ". Not running checks.")
  else
    let* c :=
      try_catch
        (doChecks_try_with find env context)
        (log lvl_error "Error performing check_run" >> ret Normal) in
    settle c.

(** A way to obtain the QE list that is noticed when it runs: it makes a
    request and then throws. *)
Definition noisy_find : M (list string) :=
  call (PullsGet (mkRepo "qe" "list") 0) (@Thrown (list string)).

(** Pull request 1 is authored by the bot; pull request 2 cannot be
    fetched. *)
Definition env_bot_first : Env :=
  mkEnv (Some 1234) (Some "kiali-bot")
    (fun _ _ _ _ _ => responds 201)
    (fun _ _ _ _ => responds 200)
    (fun _ n => if Z.eqb n 1 then Returned (mkResponse 200 (mkPullRequest "kiali-bot"))
                else Thrown)
    (fun _ n => [])
    (fun _ _ _ => Returned [mkPrRef 1; mkPrRef 2])
    logging_checkResponseStatus
    logging_checkResponseWith.

(** ** Facts about the monad *)

Lemma run_check_passes (e : CheckEffect) (w : World) :
  check_passes e ->
  run_check e w = (Returned tt, mkWorld (trace w) (logged w ++ ce_logs e) (unawaited w)).
Proof.
  intros H. unfold run_check, bind, logs. simpl. rewrite H. reflexivity.
Qed.

Lemma bind_returned {A B} (m : M A) (k : A -> M B) (w w' : World) (a : A) :
  m w = (Returned a, w') -> bind m k w = k a w'.
Proof. intros H. unfold bind. by rewrite H. Qed.

Lemma call_run {A} (c : Call) (o : Outcome A) (w : World) :
  call c o w = (o, mkWorld (trace w ++ [c]) (logged w) (unawaited w)).
Proof. reflexivity. Qed.

(** ** Facts about the verdict *)

Lemma approved_by_spec (prReviews : gmap string string) (user : string) :
  approved_by prReviews user = true <-> prReviews !! user = Some "APPROVED".
Proof.
  unfold approved_by. destruct (prReviews !! user) as [s|] eqn:E.
  - split.
    + intros H. apply andb_prop in H as [_ H]. apply String.eqb_eq in H. by subst.
    + intros [= ->]. reflexivity.
  - split; discriminate.
Qed.

Lemma conclude_success (qeUsers : list string) (prReviews : gmap string string) :
  conclude qeUsers prReviews = success <->
  exists user, user ∈ qeUsers /\ prReviews !! user = Some "APPROVED".
Proof.
  unfold conclude. destruct (existsb _ _) eqn:E.
  - apply existsb_exists in E as (u & Hin & Hu).
    split; [intros _ | done]. exists u. split.
    + by apply list_elem_of_In.
    + by apply approved_by_spec.
  - split; [discriminate |]. intros (u & Hin & Hu).
    assert (existsb (approved_by prReviews) qeUsers = true) as E'.
    { apply existsb_exists. exists u. split.
      - by apply list_elem_of_In.
      - by apply approved_by_spec. }
    congruence.
Qed.

Lemma conclude_failure (qeUsers : list string) (prReviews : gmap string string) :
  conclude qeUsers prReviews = failure <->
  ~ exists user, user ∈ qeUsers /\ prReviews !! user = Some "APPROVED".
Proof.
  rewrite <- conclude_success.
  destruct (conclude qeUsers prReviews); split; intros H; congruence.
Qed.

(** ** Facts about the mapping *)

Lemma lookup_record_review (prReviews : gmap string string) (val : Review) (user : string) :
  user ≠ "__proto__" ->
  record_review prReviews val !! user =
    if decide (user_login val = user) then Some (state val) else prReviews !! user.
Proof.
  intros Hne. unfold record_review.
  destruct (String.eqb (user_login val) "__proto__") eqn:E.
  - apply String.eqb_eq in E. case_decide; [congruence | done].
  - rewrite lookup_insert. reflexivity.
Qed.

Lemma foldl_record_review_other (vals : list Review) (prReviews : gmap string string)
    (user : string) :
  user ≠ "__proto__" ->
  Forall (fun val => user_login val ≠ user) vals ->
  foldl record_review prReviews vals !! user = prReviews !! user.
Proof.
  intros Hne. revert prReviews.
  induction vals as [|v vals IH]; intros m Hall; [done |].
  inversion Hall as [|? ? Hv Hrest]; subst. simpl.
  rewrite IH by done. rewrite lookup_record_review by done.
  case_decide; [done | reflexivity].
Qed.

(** Latest state wins: after the fold, a reviewer's recorded state is the
    state of the last review delivered for that login. *)
Lemma foldl_record_review_last (before after : list Review) (val : Review)
    (prReviews : gmap string string) :
  user_login val ≠ "__proto__" ->
  Forall (fun v => user_login v ≠ user_login val) after ->
  foldl record_review prReviews (before ++ val :: after) !! user_login val
    = Some (state val).
Proof.
  intros Hne Hafter. rewrite foldl_app. simpl.
  rewrite foldl_record_review_other by done.
  rewrite lookup_record_review by done.
  case_decide; [reflexivity | done].
Qed.

(** ** Facts about the loops *)

(** One step of a computation whose head is a request or a response check
    that is known to go through. *)
Ltac step :=
  first
    [ erewrite bind_returned by apply call_run
    | erewrite bind_returned by (apply run_check_passes; eassumption)
    | erewrite bind_returned by eassumption ].

Lemma pagesLoop_ok (env : Env) (r : Repo) (n : Z)
    (pages : list (Outcome (Response (list Review))))
    (prReviews : gmap string string) (w : World) :
  Forall (page_ok env) pages ->
  exists w',
    pagesLoop env r n pages prReviews w
      = (Returned (foldl record_review prReviews (delivered pages)), w')
    /\ trace w' = trace w ++ map (fun _ => PullsListReviews r n) pages
    /\ unawaited w' = unawaited w.
Proof.
  revert prReviews w.
  induction pages as [|page pages IH]; intros m w Hall.
  - exists w. simpl. by rewrite app_nil_r.
  - inversion Hall as [|? ? (resp & -> & Hchk) Hrest]; subst.
    cbn [pagesLoop delivered map]. do 2 step.
    edestruct (IH (foldl record_review m (data resp))) as (w' & Hrun & Htr & Hun);
      [exact Hrest |].
    exists w'. rewrite Hrun, foldl_app. split; [done |].
    cbn [trace unawaited] in Htr, Hun. rewrite Htr, <- app_assoc. done.
Qed.

Lemma reviewsLoop_ok (env : Env) (r : Repo) (pull_requests : list PrRef)
    (prReviews : gmap string string) (w : World) :
  Forall (reviews_ok env r) pull_requests ->
  exists w',
    reviewsLoop env r pull_requests prReviews w
      = (Returned (foldl record_review prReviews (all_reviews env r pull_requests)), w')
    /\ trace w' = trace w ++ review_calls env r pull_requests
    /\ unawaited w' = unawaited w.
Proof.
  revert prReviews w.
  induction pull_requests as [|pr prs IH]; intros m w Hall.
  - exists w. simpl. by rewrite app_nil_r.
  - inversion Hall as [|? ? Hpr Hrest]; subst.
    destruct (pagesLoop_ok env r (number pr) _ m w Hpr) as (w1 & Hrun1 & Htr1 & Hun1).
    destruct (IH (foldl record_review m (delivered (pulls_listReviews env r (number pr))))
                w1 Hrest) as (w' & Hrun & Htr & Hun).
    exists w'. cbn [reviewsLoop]. step. rewrite Hrun.
    unfold all_reviews, review_calls. cbn [flat_map]. rewrite foldl_app.
    split; [done |].
    unfold review_calls in Htr. rewrite Htr, Htr1, <- app_assoc.
    split; [done | congruence].
Qed.

Lemma botPrLoop_no_bot (env : Env) (context : CheckRunContext)
    (pull_requests : list PrRef) (w : World) :
  Forall (fetch_ok env (crc_repo context)) pull_requests ->
  Forall (fun pr => ~ bot_authored env (crc_repo context) pr) pull_requests ->
  exists w',
    botPrLoop env context pull_requests w = (Returned Normal, w')
    /\ trace w' = trace w
         ++ map (fun pr => PullsGet (crc_repo context) (number pr)) pull_requests
    /\ unawaited w' = unawaited w.
Proof.
  revert w. induction pull_requests as [|pr prs IH]; intros w Hfetch Hbot.
  - exists w. simpl. by rewrite app_nil_r.
  - inversion Hfetch as [|? ? (resp & Hget & Hchk) Hfetch']; subst.
    inversion Hbot as [|? ? Hnb Hbot']; subst.
    cbn [botPrLoop map]. rewrite Hget. do 2 step.
    case_bool_decide as Hlogin.
    { exfalso. apply Hnb. exists resp. done. }
    edestruct IH as (w' & Hrun & Htr & Hun); [exact Hfetch' | exact Hbot' |].
    exists w'. rewrite Hrun. split; [done |].
    cbn [trace unawaited] in Htr, Hun. rewrite Htr, <- app_assoc. done.
Qed.

Lemma isOwnedCheckRun_owned (env : Env) (cr : CheckRun) (w : World) :
  owned env cr -> isOwnedCheckRun env cr w = (Returned true, w).
Proof.
  intros [Hid | Hname]; unfold isOwnedCheckRun.
  - rewrite bool_decide_eq_true_2 by done. reflexivity.
  - apply String.eqb_eq in Hname. unfold CHECK_NAME. rewrite Hname.
    rewrite andb_false_r. reflexivity.
Qed.

Lemma isOwnedCheckRun_not_owned (env : Env) (cr : CheckRun) (w : World) :
  ~ owned env cr ->
  exists w', isOwnedCheckRun env cr w = (Returned false, w')
    /\ trace w' = trace w /\ unawaited w' = unawaited w.
Proof.
  intros Hno. unfold isOwnedCheckRun.
  rewrite bool_decide_eq_false_2 by (intros H; apply Hno; by left).
  destruct (String.eqb (cr_name cr) CHECK_NAME) eqn:E.
  { apply String.eqb_eq in E. exfalso. apply Hno. by right. }
  eexists. split; [reflexivity | done].
Qed.

(** ** The evaluation of a queued check run *)

Lemma doChecks_try_evaluates (env : Env) (context : CheckRunContext)
    (pull_requests : list PrRef) (w : World) :
  reaches_conclusion env context pull_requests ->
  exists o w',
    doChecks_try env context w = (o, w')
    /\ (o = Returned Normal \/ o = Thrown)
    /\ trace w' = trace w ++ evaluation_calls env context pull_requests
                     (conclude qeUsers (review_states env (crc_repo context) pull_requests))
    /\ unawaited w' = unawaited w.
Proof.
  intros [Hown Hq Hlook Hfetch Hnobot (upd & Hupd & Hupdchk) Hrev].
  unfold doChecks_try. cbv zeta. rewrite Hlook. step.
  edestruct (botPrLoop_no_bot env context pull_requests) as (w1 & Hrun1 & Htr1 & Hun1);
    [exact Hfetch | exact Hnobot |].
  step. rewrite Hupd. do 2 step.
  erewrite bind_returned by reflexivity.
  edestruct (reviewsLoop_ok env (crc_repo context) pull_requests ∅)
    as (w2 & Hrun2 & Htr2 & Hun2); [exact Hrev |].
  step. fold (review_states env (crc_repo context) pull_requests).
  cbn [trace unawaited] in *.
  assert (trace w2 ++ [ChecksUpdate (crc_repo context) (cr_id (check_run context)) completed
            (Some (conclude qeUsers (review_states env (crc_repo context) pull_requests)))]
          = trace w ++ evaluation_calls env context pull_requests
              (conclude qeUsers (review_states env (crc_repo context) pull_requests)))
    as Htrace.
  { rewrite Htr2, Htr1. unfold evaluation_calls. cbv zeta.
    rewrite <- !app_assoc. reflexivity. }
  destruct (checks_update env (crc_repo context) (cr_id (check_run context)) completed _)
    as [fin|] eqn:Hfin.
  - step.
    destruct (ce_throws (checkResponseWith env (Some "mark complete") (status fin))) eqn:Hthrow.
    + eexists Thrown, _. split.
      { unfold bind, run_check, logs. cbn. rewrite Hthrow. reflexivity. }
      cbn [trace unawaited]. split; [by right |]. split; [exact Htrace | congruence].
    + step. eexists (Returned Normal), _. split; [reflexivity |].
      cbn [trace unawaited]. split; [by left |]. split; [exact Htrace | congruence].
  - eexists Thrown, _. split; [reflexivity |].
    cbn [trace unawaited]. split; [by right |]. split; [exact Htrace | congruence].
Qed.

Lemma doChecks_evaluates (env : Env) (context : CheckRunContext)
    (pull_requests : list PrRef) (w : World) :
  reaches_conclusion env context pull_requests ->
  exists w',
    doChecks env context w = (Returned tt, w')
    /\ trace w' = trace w ++ evaluation_calls env context pull_requests
                     (conclude qeUsers (review_states env (crc_repo context) pull_requests))
    /\ unawaited w' = unawaited w.
Proof.
  intros Hreach.
  destruct (doChecks_try_evaluates env context pull_requests w Hreach)
    as (o & w1 & Hrun & Ho & Htr & Hun).
  destruct Hreach as [Hown Hq _ _ _ _ _].
  unfold doChecks. cbv zeta.
  erewrite bind_returned by (by apply isOwnedCheckRun_owned).
  rewrite Hq. cbn [negb String.eqb Ascii.eqb Bool.eqb andb].
  unfold bind at 1. unfold try_catch. rewrite Hrun.
  destruct Ho as [-> | ->].
  - exists w1. done.
  - eexists. split; [reflexivity |]. done.
Qed.

Lemma edgarHzg_is_qe : "edgarHzg" ∈ qeUsers.
Proof. unfold qeUsers. by left. Qed.

Lemma israel_hdez_is_qe : "israel-hdez" ∈ qeUsers.
Proof. unfold qeUsers. right. by left. Qed.

Lemma qeUsers_not_proto (user : string) : user ∈ qeUsers -> user ≠ "__proto__".
Proof.
  unfold qeUsers. rewrite !elem_of_cons, elem_of_nil.
  intros [-> | [-> | []]]; discriminate.
Qed.

(** Discharging [reaches_conclusion] on a sample input. *)
Ltac sample_reaches :=
  constructor;
  [ by left
  | reflexivity
  | reflexivity
  | repeat constructor; eexists; split; reflexivity
  | repeat constructor; intros (resp & Hget & Hlogin);
    injection Hget as <-; discriminate
  | eexists; split; reflexivity
  | repeat constructor; eexists; split; reflexivity ].

(** ** The conclusion of an evaluation *)

(** C1: an evaluation that reaches the conclusion step (check run owned
    and queued, no associated pull request authored by the bot, every API
    call up to the conclusion succeeding) ends by updating the check run to
    [completed] with a conclusion that is [success] exactly when some login
    of the QE list has the recorded state [APPROVED] in the mapping folded
    over the reviews of all associated pull requests, and [failure]
    otherwise. *)
Theorem doChecks_conclusion (env : Env) (context : CheckRunContext)
    (pull_requests : list PrRef) (w : World) :
  reaches_conclusion env context pull_requests ->
  exists conclusion w',
    doChecks env context w = (Returned tt, w')
    /\ trace w' = trace w ++ evaluation_calls env context pull_requests conclusion
    /\ (conclusion = success <->
        exists user, user ∈ qeUsers
          /\ review_states env (crc_repo context) pull_requests !! user = Some "APPROVED")
    /\ (conclusion = failure <->
        ~ exists user, user ∈ qeUsers
          /\ review_states env (crc_repo context) pull_requests !! user = Some "APPROVED").
Proof.
  intros Hreach.
  destruct (doChecks_evaluates env context pull_requests w Hreach) as (w' & Hrun & Htr & _).
  eexists _, w'. split; [exact Hrun |]. split; [exact Htr |].
  split; [apply conclude_success | apply conclude_failure].
Qed.

Lemma doChecks_conclusion_witness :
  exists w',
    doChecks env_approved sample_check_run initial = (Returned tt, w')
    /\ trace w' = evaluation_calls env_approved sample_check_run [mkPrRef 1] success.
Proof.
  assert (reaches_conclusion env_approved sample_check_run [mkPrRef 1]) as Hreach
    by sample_reaches.
  destruct (doChecks_conclusion env_approved sample_check_run [mkPrRef 1] initial Hreach)
    as (c & w' & Hrun & Htr & Hsuccess & Hfailure).
  exists w'. split; [exact Hrun |].
  assert (c = success) as Hc.
  { apply Hsuccess. exists "israel-hdez". split; [| by vm_compute].
    apply israel_hdez_is_qe. }
  rewrite Hc in Htr. exact Htr.
Defined.



(** C9: the mapping is one object for all pull requests of the commit,
    keyed by login alone, so what a later pull request delivers for a login
    replaces what an earlier one left.  In an evaluation over the pull
    requests [earlier ++ [later]] that reaches the conclusion step, let the
    last review of QE user [R] among those of [earlier] be [APPROVED] and
    the last review of [R] on [later] have a state [s] other than
    [APPROVED].  Then reading [earlier] alone records [APPROVED] for [R],
    reading all of them records [s] for [R], and when no other QE user is
    recorded as approving the check run is finalized with [failure].
    There is such an input: two pull requests of one commit, a QE user who
    approved the first, which alone would pass, and commented on the second;
    the check run is finalized with [failure]. *)
Theorem approval_overwritten_across_prs :
  (forall env context earlier later w R s approved_before approved_after before after,
     reaches_conclusion env context (earlier ++ [later]) ->
     R ∈ qeUsers ->
     all_reviews env (crc_repo context) earlier
       = approved_before ++ mkReview R "APPROVED" :: approved_after ->
     Forall (fun val => user_login val ≠ R) approved_after ->
     delivered (pulls_listReviews env (crc_repo context) (number later))
       = before ++ mkReview R s :: after ->
     Forall (fun val => user_login val ≠ R) after ->
     s ≠ "APPROVED" ->
     (forall user, user ∈ qeUsers -> user ≠ R ->
        review_states env (crc_repo context) (earlier ++ [later]) !! user
          ≠ Some "APPROVED") ->
     (exists m0,
        fst (reviewsLoop env (crc_repo context) earlier ∅ w) = Returned m0
        /\ m0 !! R = Some "APPROVED"
        /\ conclude qeUsers m0 = success)
     /\ (exists m,
           fst (reviewsLoop env (crc_repo context) (earlier ++ [later]) ∅ w) = Returned m
           /\ m !! R = Some s)
     /\ exists w',
          doChecks env context w = (Returned tt, w')
          /\ trace w' = trace w
               ++ evaluation_calls env context (earlier ++ [later]) failure)
  /\ exists env context pr1 pr2 user w',
       number pr1 ≠ number pr2
       /\ reaches_conclusion env context [pr1; pr2]
       /\ user ∈ qeUsers
       /\ mkReview user "APPROVED"
            ∈ delivered (pulls_listReviews env (crc_repo context) (number pr1))
       /\ review_states env (crc_repo context) [pr1] !! user = Some "APPROVED"
       /\ conclude qeUsers (review_states env (crc_repo context) [pr1]) = success
       /\ mkReview user "COMMENTED"
            ∈ delivered (pulls_listReviews env (crc_repo context) (number pr2))
       /\ review_states env (crc_repo context) [pr1; pr2] !! user = Some "COMMENTED"
       /\ doChecks env context initial = (Returned tt, w')
       /\ trace w' = evaluation_calls env context [pr1; pr2] failure.
Proof.
  split.
  - intros env context earlier later w R s b0 a0 before after
      Hreach HR Hearlier Ha0 Hlater Hafter Hs Hothers.
    pose proof (rc_reviews _ _ _ Hreach) as Hrev.
    apply Forall_app in Hrev as [Hrev0 _].
    assert (R ≠ "__proto__") as Hproto by (by apply qeUsers_not_proto).
    split; [| split].
    + destruct (reviewsLoop_ok env (crc_repo context) earlier ∅ w Hrev0)
        as (w0 & Hloop & _).
      eexists. rewrite Hloop. split; [reflexivity |].
      assert (foldl record_review ∅ (all_reviews env (crc_repo context) earlier) !! R
              = Some "APPROVED") as Hrec0.
      { rewrite Hearlier.
        by apply (foldl_record_review_last b0 a0 (mkReview R "APPROVED")). }
      split; [exact Hrec0 |]. apply conclude_success. by exists R.
    + destruct (reviewsLoop_ok env (crc_repo context) (earlier ++ [later]) ∅ w
                  (rc_reviews _ _ _ Hreach)) as (w1 & Hloop & _).
      eexists. rewrite Hloop. split; [reflexivity |].
      unfold all_reviews. rewrite flat_map_app. cbn [flat_map].
      rewrite app_nil_r, Hlater, app_assoc.
      by apply (foldl_record_review_last _ after (mkReview R s)).
    + destruct (doChecks_evaluates env context (earlier ++ [later]) w Hreach)
        as (w' & Hrun & Htr & _).
      exists w'. split; [exact Hrun |].
      assert (review_states env (crc_repo context) (earlier ++ [later]) !! R = Some s)
        as Hrec.
      { unfold review_states, all_reviews. rewrite flat_map_app. cbn [flat_map].
        rewrite app_nil_r, Hlater, app_assoc.
        by apply (foldl_record_review_last _ after (mkReview R s)). }
      assert (conclude qeUsers (review_states env (crc_repo context) (earlier ++ [later]))
              = failure) as Hfail.
      { apply conclude_failure. intros (user & Hin & Hap).
        destruct (decide (user = R)) as [-> | Hne].
        - rewrite Hrec in Hap. congruence.
        - by apply (Hothers user). }
      by rewrite Hfail in Htr.
  - assert (reaches_conclusion env_two_prs sample_check_run [mkPrRef 1; mkPrRef 2])
      as Hreach by sample_reaches.
    destruct (doChecks_evaluates _ _ _ initial Hreach) as (w' & Hrun & Htr & _).
    exists env_two_prs, sample_check_run, (mkPrRef 1), (mkPrRef 2), "edgarHzg", w'.
    split; [discriminate |].
    split; [exact Hreach |].
    split; [apply edgarHzg_is_qe |].
    split; [vm_compute; by left |].
    split; [by vm_compute |].
    split; [by vm_compute |].
    split; [vm_compute; by left |].
    split; [by vm_compute |].
    split; [exact Hrun |].
    rewrite Htr. reflexivity.
Qed.

Lemma approval_overwritten_across_prs_witness :
  (exists m0,
     fst (reviewsLoop env_two_prs sample_repo [mkPrRef 1] ∅ initial) = Returned m0
     /\ m0 !! "edgarHzg" = Some "APPROVED"
     /\ conclude qeUsers m0 = success)
  /\ (exists m,
        fst (reviewsLoop env_two_prs sample_repo [mkPrRef 1; mkPrRef 2] ∅ initial)
          = Returned m
        /\ m !! "edgarHzg" = Some "COMMENTED")
  /\ exists w',
       doChecks env_two_prs sample_check_run initial = (Returned tt, w')
       /\ trace w' = evaluation_calls env_two_prs sample_check_run
                       [mkPrRef 1; mkPrRef 2] failure.
Proof.
  apply (proj1 approval_overwritten_across_prs env_two_prs sample_check_run
           [mkPrRef 1] (mkPrRef 2) initial "edgarHzg" "COMMENTED" [] [] [] []).
  - sample_reaches.
  - apply edgarHzg_is_qe.
  - reflexivity.
  - constructor.
  - reflexivity.
  - constructor.
  - discriminate.
  - unfold qeUsers. intros user Hin Hne.
    apply elem_of_cons in Hin as [-> | Hin]; [done |].
    apply list_elem_of_singleton in Hin as ->. by vm_compute.
Defined.

(** ** The guard of [doChecks] *)

(** C2: [isOwnedCheckRun] answers [true] exactly when the app id of the
    check run is the configured one or its name is the fixed check name;
    and unless the check run is owned and its status is [queued],
    [doChecks] returns without a single request (and without starting
    anything it does not await). *)
Theorem doChecks_guard (env : Env) (context : CheckRunContext) (w : World) :
  (fst (isOwnedCheckRun env (check_run context) w) = Returned true <->
     (Some (cr_app_id (check_run context)) = APP_ID env
      \/ cr_name (check_run context) = "Kiali - PR"))
  /\ (~ ((Some (cr_app_id (check_run context)) = APP_ID env
          \/ cr_name (check_run context) = "Kiali - PR")
         /\ cr_status (check_run context) = "queued") ->
      exists w',
        doChecks env context w = (Returned tt, w')
        /\ trace w' = trace w
        /\ unawaited w' = unawaited w).
Proof.
  fold (owned env (check_run context)).
  destruct (decide (Some (cr_app_id (check_run context)) = APP_ID env)) as [Hid | Hid];
    [| destruct (String.eqb_spec (cr_name (check_run context)) "Kiali - PR")
         as [Hname | Hname]].
  1, 2: assert (owned env (check_run context)) as Hown by (by constructor).
  3: assert (~ owned env (check_run context)) as Hown by (by intros [|]).
  1, 2: (split;
    [ by rewrite isOwnedCheckRun_owned
    | intros Hguard; unfold doChecks; cbv zeta;
      erewrite bind_returned by (by apply isOwnedCheckRun_owned);
      cbn [negb];
      destruct (String.eqb_spec (cr_status (check_run context)) "queued") as [Hq | Hq];
      [ exfalso; by apply Hguard
      | cbn [negb]; eexists; split; [reflexivity | done] ] ]).
  destruct (isOwnedCheckRun_not_owned env (check_run context) w Hown)
    as (w' & Hrun & Htr & Hun).
  split.
  - rewrite Hrun. split; [discriminate | done].
  - intros _. exists w'. unfold doChecks. cbv zeta.
    erewrite bind_returned by exact Hrun. done.
Qed.

Lemma doChecks_guard_witness :
  exists w',
    doChecks env_approved
      (mkCheckRunContext sample_repo
         (mkCheckRun 99 1234 "Kiali - PR" "c0ffee" "completed" [])) initial
      = (Returned tt, w')
    /\ trace w' = [] /\ unawaited w' = [].
Proof.
  apply (proj2 (doChecks_guard env_approved
                  (mkCheckRunContext sample_repo
                     (mkCheckRun 99 1234 "Kiali - PR" "c0ffee" "completed" [])) initial)).
  simpl. intros [_ Hq]. discriminate.
Defined.

(** ** Pull requests of the bot *)

Lemma settle_markBotPrAsOk (env : Env) (context : CheckRunContext) (w : World) :
  exists o w',
    markBotPrAsOk env context w = (o, w')
    /\ trace w' = trace w
         ++ [ChecksUpdate (crc_repo context) (cr_id (check_run context))
               completed (Some success)]
    /\ unawaited w' = unawaited w
    /\ ((exists resp,
           checks_update env (crc_repo context) (cr_id (check_run context))
             completed (Some success) = Returned resp
           /\ check_passes (checkResponseWith env None (status resp))) ->
        o = Returned tt).
Proof.
  unfold markBotPrAsOk.
  destruct (checks_update env (crc_repo context) (cr_id (check_run context))
              completed (Some success)) as [resp|] eqn:Hupd.
  - step.
    destruct (ce_throws (checkResponseWith env None (status resp))) eqn:Hthrow.
    + eexists Thrown, _. split.
      { unfold run_check, bind, logs. cbn. rewrite Hthrow. reflexivity. }
      cbn [trace unawaited]. repeat split.
      intros (resp' & [= <-] & Hchk). unfold check_passes in Hchk. congruence.
    + rewrite run_check_passes by done. eexists _, _. split; [reflexivity |].
      cbn [trace unawaited]. done.
  - eexists Thrown, _. split; [reflexivity |].
    cbn [trace unawaited]. repeat split. intros (resp' & [=] & _).
Qed.

(** [doChecks] is [doChecks_with] at the way the source obtains the list. *)
Lemma doChecks_with_findQeUsers (env : Env) (context : CheckRunContext) :
  doChecks_with findQeUsers env context = doChecks env context.
Proof. reflexivity. Qed.

Lemma botPrLoop_reaches_bot (env : Env) (context : CheckRunContext)
    (before after : list PrRef) (pr : PrRef) (w : World) :
  Forall (fetch_ok env (crc_repo context)) before ->
  Forall (fun p => ~ bot_authored env (crc_repo context) p) before ->
  fetch_ok env (crc_repo context) pr ->
  bot_authored env (crc_repo context) pr ->
  exists w',
    botPrLoop env context (before ++ pr :: after) w
      = (Returned (ReturnPromise (markBotPrAsOk env context)), w')
    /\ trace w' = trace w
         ++ map (fun p => PullsGet (crc_repo context) (number p)) (before ++ [pr])
    /\ unawaited w' = unawaited w.
Proof.
  revert w. induction before as [|p before IH]; intros w Hfetch Hnobot Hpr Hbot.
  - destruct Hpr as (resp & Hget & Hchk). destruct Hbot as (resp' & Hget' & Hlogin).
    rewrite Hget in Hget'. injection Hget' as <-.
    cbn [app botPrLoop map]. rewrite Hget. do 2 step.
    rewrite bool_decide_eq_true_2 by exact Hlogin.
    eexists. split; [reflexivity | done].
  - inversion Hfetch as [|? ? (resp & Hget & Hchk) Hfetch']; subst.
    inversion Hnobot as [|? ? Hnb Hnobot']; subst.
    cbn [app botPrLoop map]. rewrite Hget. do 2 step.
    case_bool_decide as Hlogin.
    { exfalso. apply Hnb. by exists resp. }
    edestruct IH as (w' & Hrun & Htr & Hun);
      [exact Hfetch' | exact Hnobot' | exact Hpr | exact Hbot |].
    exists w'. rewrite Hrun. split; [done |].
    cbn [trace unawaited] in Htr, Hun. rewrite Htr, <- app_assoc. done.
Qed.

(** C3, as the code has it: in an evaluation (check run owned and queued,
    pull requests of the commit resolved) in which the loop reaches a pull
    request authored by the configured bot user, that pull request and
    every one iterated before it being fetched successfully, the requests
    of the handler are the lookup, the fetches up to that pull request and
    then the update of the check run to [completed] with [success].  The
    [in_progress] update is never issued and no reviews are requested; the
    QE list is not fetched either: the handler does the same whatever
    fetching that list would do, be it a request or an exception.  When the
    update succeeds the handler returns. *)
Theorem doChecks_bot_pr_reached (env : Env) (context : CheckRunContext)
    (before after : list PrRef) (pr : PrRef) (w : World) :
  owned env (check_run context) ->
  cr_status (check_run context) = "queued" ->
  getOrQueryPrsForCommit env (crc_repo context) (cr_head_sha (check_run context))
    (cr_pull_requests (check_run context)) = Returned (before ++ pr :: after) ->
  Forall (fetch_ok env (crc_repo context)) before ->
  Forall (fun p => ~ bot_authored env (crc_repo context) p) before ->
  fetch_ok env (crc_repo context) pr ->
  bot_authored env (crc_repo context) pr ->
  exists o w',
    doChecks env context w = (o, w')
    /\ trace w' = trace w ++ bot_shortcut_calls context (before ++ [pr])
    /\ Forall (fun c => is_review_evaluation c = false)
              (bot_shortcut_calls context (before ++ [pr]))
    /\ (forall find : M (list string), doChecks_with find env context w = (o, w'))
    /\ ((exists resp,
           checks_update env (crc_repo context) (cr_id (check_run context))
             completed (Some success) = Returned resp
           /\ check_passes (checkResponseWith env None (status resp))) ->
        o = Returned tt).
Proof.
  intros Hown Hq Hlook Hfetch Hnobot Hpr Hbot.
  assert (exists w1,
            (forall find,
               doChecks_try_with find env context w
                 = (Returned (ReturnPromise (markBotPrAsOk env context)), w1))
            /\ trace w1 = trace w
                 ++ PrsForCommit (crc_repo context) (cr_head_sha (check_run context))
                      (cr_pull_requests (check_run context))
                 :: map (fun p => PullsGet (crc_repo context) (number p)) (before ++ [pr]))
    as (w1 & Htry & Htr1).
  { edestruct (botPrLoop_reaches_bot env context before after pr)
      as (w1 & Hrun1 & Htr1 & _);
      [exact Hfetch | exact Hnobot | exact Hpr | exact Hbot |].
    exists w1. split.
    - intros find. unfold doChecks_try_with. cbv zeta. rewrite Hlook. step.
      erewrite bind_returned by exact Hrun1. reflexivity.
    - cbn [trace] in Htr1. rewrite Htr1, <- app_assoc. reflexivity. }
  assert (forall find, doChecks_with find env context w = markBotPrAsOk env context w1)
    as Hwith.
  { intros find. unfold doChecks_with. cbv zeta.
    erewrite bind_returned by (by apply isOwnedCheckRun_owned).
    rewrite Hq. cbn [negb String.eqb Ascii.eqb Bool.eqb andb].
    unfold bind at 1. unfold try_catch. rewrite (Htry find). reflexivity. }
  destruct (settle_markBotPrAsOk env context w1) as (o & w' & Hrun & Htr & Hun & Hret).
  exists o, w'.
  split; [by rewrite <- Hrun; apply (Hwith findQeUsers) |].
  split.
  { rewrite Htr, Htr1. unfold bot_shortcut_calls. cbv zeta.
    by rewrite <- !app_assoc. }
  split.
  { unfold bot_shortcut_calls. cbv zeta. constructor; [reflexivity |].
    apply Forall_app. split; [| by repeat constructor].
    apply Forall_forall. intros c Hc.
    apply list_elem_of_In, in_map_iff in Hc as (p & <- & _). reflexivity. }
  split; [| exact Hret].
  intros find. by rewrite Hwith.
Qed.

Lemma doChecks_bot_pr_reached_witness :
  exists w',
    doChecks env_bot_first sample_check_run initial = (Returned tt, w')
    /\ trace w' = bot_shortcut_calls sample_check_run [mkPrRef 1]
    /\ doChecks_with noisy_find env_bot_first sample_check_run initial = (Returned tt, w').
Proof.
  destruct (doChecks_bot_pr_reached env_bot_first sample_check_run
              [] [mkPrRef 2] (mkPrRef 1) initial)
    as (o & w' & Hrun & Htr & _ & Hwith & Hret).
  - by left.
  - reflexivity.
  - reflexivity.
  - constructor.
  - constructor.
  - eexists. split; reflexivity.
  - eexists. split; reflexivity.
  - exists w'. rewrite Hret in Hrun, Hwith by (eexists; split; reflexivity).
    split; [exact Hrun |]. split; [exact Htr | apply Hwith].
Defined.

(** C3 as first stated does not hold: a pull request of the bot among those
    of the commit is not enough.  Here pull request 3 is authored by the
    bot, but the fetch of pull request 2 fails before the loop gets there,
    and the check run is not updated at all. *)
Lemma doChecks_bot_pr_not_reached :
  ~ (forall env context pull_requests w,
       owned env (check_run context) ->
       cr_status (check_run context) = "queued" ->
       getOrQueryPrsForCommit env (crc_repo context) (cr_head_sha (check_run context))
         (cr_pull_requests (check_run context)) = Returned pull_requests ->
       Exists (bot_authored env (crc_repo context)) pull_requests ->
       exists calls,
         trace (snd (doChecks env context w)) = trace w ++ calls
         /\ ChecksUpdate (crc_repo context) (cr_id (check_run context))
              completed (Some success) ∈ calls).
Proof.
  intros Hclaim.
  destruct (Hclaim env_fetch_fails sample_check_run
              [mkPrRef 1; mkPrRef 2; mkPrRef 3] initial)
    as (calls & Htr & Hin).
  - by left.
  - reflexivity.
  - reflexivity.
  - apply Exists_cons_tl, Exists_cons_tl, Exists_cons_hd. eexists. split; reflexivity.
  - vm_compute in Htr. subst calls.
    repeat (apply elem_of_cons in Hin as [Hin | Hin]; [discriminate |]).
    by apply elem_of_nil in Hin.
Qed.

(** ** Creating check runs *)

Lemma includes_spec (l : list string) (s : string) : includes l s = true <-> s ∈ l.
Proof.
  unfold includes. rewrite existsb_exists. split.
  - intros (x & Hin & Heq). apply String.eqb_eq in Heq as ->. by apply list_elem_of_In.
  - intros Hin. exists s. split; [by apply list_elem_of_In | apply String.eqb_refl].
Qed.

Lemma createCheckRun_calls (env : Env) (r : Repo) (head_sha : string) (w : World) :
  exists o w',
    createCheckRun env r head_sha w = (o, w')
    /\ trace w' = trace w ++ [ChecksCreate r CHECK_NAME head_sha queued None]
    /\ unawaited w' = unawaited w.
Proof.
  unfold createCheckRun, try_finally, bind, call, run_check, logs, ret, throw.
  destruct (checks_create env r CHECK_NAME head_sha queued None) as [resp|]; cbn.
  - destruct (ce_throws _); cbn; eexists _, _; done.
  - eexists _, _; done.
Qed.

Lemma shortcut_condition (context : ReviewContext) :
  approved_by_qe_sender context <->
  (String.eqb (rvc_action context) "edited" || String.eqb (rvc_action context) "submitted")
    && String.eqb (rvc_review_state context) "approved"
    && includes qeUsers (rvc_sender_login context) = true.
Proof.
  unfold approved_by_qe_sender.
  rewrite !andb_true_iff, orb_true_iff, !String.eqb_eq, includes_spec. tauto.
Qed.

(** When the shortcut applies, the only request is the creation of a
    completed, successful check run, however that request ends. *)
Lemma review_shortcut (env : Env) (context : ReviewContext) (w : World) :
  approved_by_qe_sender context ->
  exists o w',
    pullRequestReviewEventHandler env context w = (o, w')
    /\ trace w' = trace w
         ++ [ChecksCreate (rvc_repo context) CHECK_NAME (rvc_head_sha context)
               completed (Some success)]
    /\ unawaited w' = unawaited w.
Proof.
  intros Hc. apply shortcut_condition in Hc.
  apply andb_true_iff in Hc as [Hc Hqe]. unfold pullRequestReviewEventHandler.
  rewrite Hc. unfold findQeUsers, try_finally, bind at 2. cbn [ret]. rewrite Hqe.
  unfold bind, log, call, run_check, logs, ret, throw.
  destruct (checks_create env _ _ _ _ _) as [resp|]; cbn.
  - destruct (ce_throws _); cbn; eexists _, _; done.
  - eexists _, _; done.
Qed.

(** Otherwise a queued check run is created, without waiting for it. *)
Lemma review_default (env : Env) (context : ReviewContext) (w : World) :
  ~ approved_by_qe_sender context ->
  exists o w',
    pullRequestReviewEventHandler env context w = (Returned tt, w')
    /\ trace w' = trace w
         ++ [ChecksCreate (rvc_repo context) CHECK_NAME (rvc_head_sha context) queued None]
    /\ unawaited w' = unawaited w ++ [o].
Proof.
  intros Hc. rewrite shortcut_condition in Hc. apply not_true_is_false in Hc.
  unfold pullRequestReviewEventHandler.
  assert (forall w0, exists o w',
            (log lvl_debug ("Queuing new PR checks (PR " +:+ pretty (rvc_number context) +:+ ")") >>
             unawaited_call (createCheckRun env (rvc_repo context) (rvc_head_sha context))) w0
              = (Returned tt, w')
            /\ trace w' = trace w0
                 ++ [ChecksCreate (rvc_repo context) CHECK_NAME (rvc_head_sha context) queued None]
            /\ unawaited w' = unawaited w0 ++ [o]) as Hdefault.
  { intros w0. unfold bind at 1. unfold log at 1. unfold unawaited_call.
    edestruct (createCheckRun_calls env (rvc_repo context) (rvc_head_sha context))
      as (o & w' & Hrun & Htr & Hun).
    rewrite Hrun. eexists o, _. split; [reflexivity |].
    cbn [trace unawaited] in *. by rewrite Htr, Hun. }
  destruct ((String.eqb (rvc_action context) "edited"
             || String.eqb (rvc_action context) "submitted")
            && String.eqb (rvc_review_state context) "approved") eqn:Hcond.
  - rewrite andb_true_l in Hc.
    unfold findQeUsers, try_finally, bind at 1, bind at 1. cbn [ret]. rewrite Hc.
    apply Hdefault.
  - unfold bind at 1. cbn [ret]. apply Hdefault.
Qed.

(** C5: on a review event with action [submitted] or [edited], if the
    review state is [approved] and the sender is in the QE list, the handler
    issues exactly one request, the creation of a check run that is
    [completed] with [success] (no [queued] creation, no update); if the
    sender is not in the QE list or the review state is not [approved], it
    issues exactly one request, the creation of a [queued] check run. *)
Theorem review_event_creates_check (env : Env) (context : ReviewContext) (w : World) :
  rvc_action context = "submitted" \/ rvc_action context = "edited" ->
  (rvc_review_state context = "approved" /\ rvc_sender_login context ∈ qeUsers ->
     trace (snd (pullRequestReviewEventHandler env context w))
       = trace w ++ [ChecksCreate (rvc_repo context) "Kiali - PR" (rvc_head_sha context)
                       completed (Some success)])
  /\ (~ (rvc_review_state context = "approved" /\ rvc_sender_login context ∈ qeUsers) ->
      trace (snd (pullRequestReviewEventHandler env context w))
        = trace w ++ [ChecksCreate (rvc_repo context) "Kiali - PR" (rvc_head_sha context)
                        queued None]).
Proof.
  intros Hact. split.
  - intros [Hst Hqe].
    destruct (review_shortcut env context w) as (o & w' & Hrun & Htr & _).
    { unfold approved_by_qe_sender. tauto. }
    by rewrite Hrun.
  - intros Hno.
    destruct (review_default env context w) as (o & w' & Hrun & Htr & _).
    { unfold approved_by_qe_sender. tauto. }
    by rewrite Hrun.
Qed.

Lemma review_event_creates_check_witness :
  trace (snd (pullRequestReviewEventHandler env_approved
                (sample_review "submitted" "approved" "israel-hdez" "israel-hdez") initial))
    = [ChecksCreate sample_repo "Kiali - PR" "c0ffee" completed (Some success)]
  /\ trace (snd (pullRequestReviewEventHandler env_approved
                   (sample_review "submitted" "approved" "alice" "alice") initial))
       = [ChecksCreate sample_repo "Kiali - PR" "c0ffee" queued None].
Proof.
  split.
  - apply (proj1 (review_event_creates_check env_approved
                    (sample_review "submitted" "approved" "israel-hdez" "israel-hdez")
                    initial (or_introl eq_refl))).
    split; [reflexivity | apply israel_hdez_is_qe].
  - apply (proj2 (review_event_creates_check env_approved
                    (sample_review "submitted" "approved" "alice" "alice")
                    initial (or_introl eq_refl))).
    intros [_ Hin]. apply includes_spec in Hin. discriminate.
Defined.

(** C10: the QE test of the shortcut reads the sender of the event.  On a
    submitted, approved review the completed and successful check run is
    created exactly when the sender login is in the QE list, and the login of
    the author of the review has no influence on what the handler does. *)
Theorem review_shortcut_tests_sender (env : Env) (r : Repo)
    (author sender head_sha : string) (n : Z) (w : World) :
  (trace (snd (pullRequestReviewEventHandler env
                 (mkReviewContext r "submitted" "approved" author sender n head_sha) w))
     = trace w ++ [ChecksCreate r "Kiali - PR" head_sha completed (Some success)]
   <-> sender ∈ qeUsers)
  /\ (forall author',
        pullRequestReviewEventHandler env
          (mkReviewContext r "submitted" "approved" author' sender n head_sha) w
        = pullRequestReviewEventHandler env
            (mkReviewContext r "submitted" "approved" author sender n head_sha) w).
Proof.
  split; [| reflexivity].
  set (context := mkReviewContext r "submitted" "approved" author sender n head_sha).
  split.
  - intros Htr. destruct (decide (sender ∈ qeUsers)) as [Hin | Hnin]; [done |].
    destruct (review_default env context w) as (o & w' & Hrun & Htr' & _).
    { unfold approved_by_qe_sender. cbn. tauto. }
    rewrite Hrun in Htr. cbn [snd] in Htr. rewrite Htr' in Htr.
    apply app_inv_head in Htr. discriminate.
  - intros Hin.
    destruct (review_shortcut env context w) as (o & w' & Hrun & Htr & _).
    { unfold approved_by_qe_sender. cbn. tauto. }
    by rewrite Hrun.
Qed.

(** ** Failures *)

(** An exception raised inside the [try] block of [doChecks] is caught: the
    error is logged and the handler returns without any further request. *)
Lemma doChecks_catches (env : Env) (context : CheckRunContext) (w w1 : World) :
  owned env (check_run context) ->
  cr_status (check_run context) = "queued" ->
  doChecks_try env context w = (Thrown, w1) ->
  doChecks env context w
    = (Returned tt,
       mkWorld (trace w1) (logged w1 ++ [mkLog lvl_error "Error performing check_run"])
               (unawaited w1)).
Proof.
  intros Hown Hq Htry. unfold doChecks. cbv zeta.
  erewrite bind_returned by (by apply isOwnedCheckRun_owned).
  rewrite Hq. cbn [negb String.eqb Ascii.eqb Bool.eqb andb].
  unfold bind at 1. unfold try_catch. rewrite Htry. reflexivity.
Qed.

Lemma botPrLoop_completion (env : Env) (context : CheckRunContext)
    (pull_requests : list PrRef) (w w' : World) (c : Completion) :
  botPrLoop env context pull_requests w = (Returned c, w') ->
  c = Normal \/ c = ReturnPromise (markBotPrAsOk env context).
Proof.
  revert w. induction pull_requests as [|pr prs IH]; intros w.
  - intros [= <- _]. by left.
  - cbn [botPrLoop]. unfold bind at 1. unfold call at 1.
    destruct (pulls_get env (crc_repo context) (number pr)) as [resp|]; [| discriminate].
    unfold bind at 1. unfold run_check, bind at 1. unfold logs at 1.
    destruct (ce_throws _); [discriminate |]. cbn [ret].
    case_bool_decide.
    + intros [= <- _]. by right.
    + apply IH.
Qed.

(** The only exception that leaves [doChecks] comes from [markBotPrAsOk],
    whose promise is returned from inside the [try] block without being
    awaited there. *)
Lemma doChecks_rejection (env : Env) (context : CheckRunContext) (w w' : World) :
  doChecks env context w = (Thrown, w') ->
  exists w1,
    doChecks_try env context w
      = (Returned (ReturnPromise (markBotPrAsOk env context)), w1)
    /\ markBotPrAsOk env context w1 = (Thrown, w').
Proof.
  unfold doChecks. cbv zeta. unfold bind at 1. unfold isOwnedCheckRun.
  destruct (_ && _); [discriminate |]. cbn [ret negb].
  destruct (String.eqb _ _); cbn [negb]; [| discriminate].
  unfold bind at 1. unfold try_catch.
  destruct (doChecks_try env context w) as [[c|] w1] eqn:Htry; [| discriminate].
  assert (c = Normal \/ c = ReturnPromise (markBotPrAsOk env context)) as [-> | ->].
  { revert Htry. unfold doChecks_try. cbv zeta. unfold bind at 1. unfold call at 1.
    destruct (getOrQueryPrsForCommit env _ _ _) as [prs|]; [| discriminate].
    unfold bind at 1.
    destruct (botPrLoop env context prs _) as [[b|] w2] eqn:Hloop; [| discriminate].
    apply botPrLoop_completion in Hloop as [-> | ->].
    - unfold bind, call, run_check, logs, findQeUsers, ret, throw.
      repeat (match goal with
              | |- context [match ?x with _ => _ end] => destruct x eqn:?
              end; try discriminate).
      intros [= <- _]. by left.
    - intros [= <- _]. by right. }
  - discriminate.
  - intros Hrun. exists w1. done.
Qed.

(** C6: a submitted, approved review by a QE user whose immediate creation
    of the successful check run fails.  When the creation answers with
    status 500 the handler logs that a normal check run will be queued and
    returns without queuing one; when the creation throws, the exception
    leaves the handler.  In both cases the only request is the failed
    creation. *)
Theorem review_shortcut_failure_not_requeued :
  pullRequestReviewEventHandler (env_create (responds 500))
    (sample_review "submitted" "approved" "edgarHzg" "edgarHzg") initial
  = (Returned tt,
     mkWorld
       [ChecksCreate sample_repo "Kiali - PR" "c0ffee" completed (Some success)]
       [mkLog lvl_debug "Creating successfull check (PR 12)";
        mkLog lvl_error
          "Failed to create green check_run after approval of PR#12. A normal check_run will be queued."]
       [])
  /\ pullRequestReviewEventHandler (env_create Thrown)
       (sample_review "submitted" "approved" "edgarHzg" "edgarHzg") initial
     = (Thrown,
        mkWorld
          [ChecksCreate sample_repo "Kiali - PR" "c0ffee" completed (Some success)]
          [mkLog lvl_debug "Creating successfull check (PR 12)"]
          []).
Proof. split; vm_compute; reflexivity. Qed.

(** C7: a pull request is opened and the creation of the queued check run
    throws.  The handler has already returned; the promise of
    [createCheckRun] is rejected with nobody awaiting it, and nothing is
    logged about the error. *)
Theorem createCheckRun_error_not_caught :
  pullRequestEventHandler (env_create Thrown)
    (mkPullRequestContext sample_repo 12 "c0ffee") initial
  = (Returned tt,
     mkWorld
       [ChecksCreate sample_repo "Kiali - PR" "c0ffee" queued None]
       [mkLog lvl_debug "Queuing new PR checks (PR 12)"]
       [Thrown]).
Proof. vm_compute. reflexivity. Qed.

(** C8: the commit has a pull request authored by the bot and the update
    that marks the check run successful throws.  The exception is not
    caught by the [try] of [doChecks]: the handler ends by throwing and no
    error is logged. *)
Theorem doChecks_bot_update_error_escapes :
  doChecks (env_bot_pr Thrown) sample_check_run initial
  = (Thrown,
     mkWorld
       [PrsForCommit sample_repo "c0ffee" [];
        PullsGet sample_repo 1;
        PullsGet sample_repo 2;
        ChecksUpdate sample_repo 99 completed (Some success)]
       [mkLog lvl_info "Not doing checks on PR because it is owned by the bot user."]
       []).
Proof. vm_compute. reflexivity. Qed.

(** ** Further properties: queuing check runs *)

Lemma run_check_cases (e : CheckEffect) (w : World) :
  (ce_throws e = false
   /\ run_check e w = (Returned tt, mkWorld (trace w) (logged w ++ ce_logs e) (unawaited w)))
  \/ (ce_throws e = true
      /\ run_check e w = (Thrown, mkWorld (trace w) (logged w ++ ce_logs e) (unawaited w))).
Proof.
  unfold run_check, bind, logs, throw, ret. destruct (ce_throws e); [right | left]; done.
Qed.

(** X3: [createCheckRun] makes exactly one request, the creation of a
    queued check run named after the behaviour for the given commit, and
    starts nothing else.  Its empty [finally] swallows nothing: it throws
    exactly when the request throws or the check of the response throws. *)
Theorem createCheckRun_settles (env : Env) (r : Repo) (head_sha : string) (w : World) :
  exists o w',
    createCheckRun env r head_sha w = (o, w')
    /\ trace w' = trace w ++ [ChecksCreate r "Kiali - PR" head_sha queued None]
    /\ unawaited w' = unawaited w
    /\ (o = Thrown <-> create_fails env r head_sha queued None "Failed to create check run")
    /\ (o = Returned tt <->
        ~ create_fails env r head_sha queued None "Failed to create check run").
Proof.
  unfold createCheckRun, try_finally, create_fails. unfold bind at 1. unfold call at 1.
  fold CHECK_NAME.
  destruct (checks_create env r CHECK_NAME head_sha queued None) as [resp|] eqn:Hcreate.
  - cbn [status]. 
    destruct (run_check_cases
                (checkResponseStatus env (status resp) 201 "Failed to create check run")
                (mkWorld (trace w ++ [ChecksCreate r CHECK_NAME head_sha queued None])
                         (logged w) (unawaited w)))
      as [[Hc Hrun] | [Hc Hrun]]; rewrite Hrun; cbn [ret].
    + eexists _, _. split; [reflexivity |]. cbn [trace unawaited].
      split; [done |]. split; [done |]. split.
      * split; [discriminate |]. intros [[=] | (resp' & [= <-] & Hthrow)]. congruence.
      * split; [| done]. intros _ [[=] | (resp' & [= <-] & Hthrow)]. congruence.
    + eexists _, _. split; [reflexivity |]. cbn [trace unawaited].
      split; [done |]. split; [done |]. split.
      * split; [| done]. intros _. right. by exists resp.
      * split; [discriminate |]. intros Hno. exfalso. apply Hno. right. by exists resp.
  - cbn [ret]. eexists _, _. split; [reflexivity |]. cbn [trace unawaited].
    split; [done |]. split; [done |]. split.
    + split; [| done]. intros _. by left.
    + split; [discriminate |]. intros Hno. exfalso. apply Hno. by left.
Qed.

(** X2: whatever the API does, [pullRequestEventHandler] returns; it makes
    one request, the creation of a queued check run for the head commit of
    the pull request, and leaves behind one promise nobody awaits, which is
    rejected exactly when that creation fails. *)
Theorem pullRequestEventHandler_always_queues (env : Env) (context : PullRequestContext)
    (w : World) :
  exists o w',
    pullRequestEventHandler env context w = (Returned tt, w')
    /\ trace w' = trace w
         ++ [ChecksCreate (prc_repo context) "Kiali - PR" (prc_head_sha context) queued None]
    /\ unawaited w' = unawaited w ++ [o]
    /\ (o = Thrown <->
        create_fails env (prc_repo context) (prc_head_sha context) queued None
          "Failed to create check run").
Proof.
  unfold pullRequestEventHandler. unfold bind at 1. unfold log at 1. unfold unawaited_call.
  edestruct (createCheckRun_settles env (prc_repo context) (prc_head_sha context))
    as (o & w' & Hrun & Htr & Hun & Hthrown & _).
  rewrite Hrun. exists o. eexists. split; [reflexivity |].
  cbn [trace unawaited] in *. rewrite Htr, Hun. done.
Qed.

(** X1: [checkRerequestedHandler] always returns.  For a check run that is
    not owned it makes no request and starts nothing; for an owned one it
    makes one request, the creation of a queued check run for the same head
    commit, whose settlement it does not await. *)
Theorem checkRerequestedHandler_requeues (env : Env) (context : CheckRunContext)
    (w : World) :
  (~ owned env (check_run context) ->
     exists w',
       checkRerequestedHandler env context w = (Returned tt, w')
       /\ trace w' = trace w /\ unawaited w' = unawaited w)
  /\ (owned env (check_run context) ->
      exists o w',
        checkRerequestedHandler env context w = (Returned tt, w')
        /\ trace w' = trace w
             ++ [ChecksCreate (crc_repo context) "Kiali - PR"
                   (cr_head_sha (check_run context)) queued None]
        /\ unawaited w' = unawaited w ++ [o]).
Proof.
  unfold checkRerequestedHandler. split.
  - intros Hno.
    destruct (isOwnedCheckRun_not_owned env (check_run context) w Hno)
      as (w' & Hrun & Htr & Hun).
    exists w'. erewrite bind_returned by exact Hrun. done.
  - intros Hown.
    erewrite bind_returned by (by apply isOwnedCheckRun_owned). cbn [negb].
    unfold bind at 1. unfold log at 1. unfold unawaited_call.
    edestruct (createCheckRun_settles env (crc_repo context) (cr_head_sha (check_run context)))
      as (o & w' & Hrun & Htr & Hun & _).
    rewrite Hrun. exists o. eexists. split; [reflexivity |].
    cbn [trace unawaited] in *. rewrite Htr, Hun. done.
Qed.

Lemma checkRerequestedHandler_requeues_witness :
  (exists w',
     checkRerequestedHandler env_approved foreign_check_run initial = (Returned tt, w')
     /\ trace w' = [] /\ unawaited w' = [])
  /\ (exists o w',
        checkRerequestedHandler env_approved sample_check_run initial = (Returned tt, w')
        /\ trace w' = [ChecksCreate sample_repo "Kiali - PR" "c0ffee" queued None]
        /\ unawaited w' = [o]).
Proof.
  split.
  - apply (proj1 (checkRerequestedHandler_requeues env_approved foreign_check_run initial)).
    intros [Hid | Hname]; discriminate.
  - apply (proj2 (checkRerequestedHandler_requeues env_approved sample_check_run initial)).
    by left.
Defined.

(** ** Further properties: review events *)

Lemma approved_by_qe_sender_dec (context : ReviewContext) :
  approved_by_qe_sender context \/ ~ approved_by_qe_sender context.
Proof.
  rewrite shortcut_condition. destruct (_ && _); [by left | right; discriminate].
Qed.

(** X4: on every review event, whatever the API does, the handler makes
    exactly one request, and that request creates a check run named after
    the behaviour for the head commit of the pull request, either completed
    and successful or queued. *)
Theorem review_event_one_creation (env : Env) (context : ReviewContext) (w : World) :
  exists st conclusion,
    trace (snd (pullRequestReviewEventHandler env context w))
      = trace w ++ [ChecksCreate (rvc_repo context) "Kiali - PR" (rvc_head_sha context)
                      st conclusion]
    /\ ((st = completed /\ conclusion = Some success)
        \/ (st = queued /\ conclusion = None)).
Proof.
  destruct (approved_by_qe_sender_dec context) as [Hc | Hc].
  - destruct (review_shortcut env context w Hc) as (o & w' & Hrun & Htr & _).
    exists completed, (Some success). rewrite Hrun. split; [exact Htr | by left].
  - destruct (review_default env context w Hc) as (o & w' & Hrun & Htr & _).
    exists queued, None. rewrite Hrun. split; [exact Htr | by right].
Qed.

(** X5: the review handler throws exactly when the shortcut applies and
    the creation of the successful check run fails (the request throws or
    the check of its response throws); in every other case it returns, and
    only then can it have left a promise behind. *)
Theorem review_event_throws_iff (env : Env) (context : ReviewContext) (w : World) :
  (fst (pullRequestReviewEventHandler env context w) = Thrown <->
     approved_by_qe_sender context
     /\ create_fails env (rvc_repo context) (rvc_head_sha context) completed (Some success)
          ("Failed to create green check_run after approval of PR#"
             +:+ pretty (rvc_number context) +:+ ". A normal check_run will be queued."))
  /\ (fst (pullRequestReviewEventHandler env context w) = Thrown ->
      unawaited (snd (pullRequestReviewEventHandler env context w)) = unawaited w).
Proof.
  destruct (approved_by_qe_sender_dec context) as [Hc | Hc].
  - split; [| intros _; destruct (review_shortcut env context w Hc)
                          as (o & w' & Hrun & _ & Hun); by rewrite Hrun].
    pose proof Hc as Hb. apply shortcut_condition in Hb.
    apply andb_true_iff in Hb as [Hb Hqe]. unfold pullRequestReviewEventHandler.
    rewrite Hb. unfold findQeUsers, try_finally, bind, ret, log, call. cbv beta iota.
    rewrite Hqe. unfold create_fails.
    destruct (checks_create env (rvc_repo context) CHECK_NAME (rvc_head_sha context)
                completed (Some success)) as [resp|] eqn:Hcreate.
    + match goal with
      | |- context [run_check ?e ?w0] =>
          destruct (run_check_cases e w0) as [[Hthrow Hrun] | [Hthrow Hrun]]; rewrite Hrun
      end; cbn.
      * split; [discriminate |]. intros (_ & [[=] | (resp' & [= <-] & Hthrow')]).
        congruence.
      * split; [| done]. intros _. split; [exact Hc |]. right. by exists resp.
    + cbn. split; [| done]. intros _. split; [exact Hc | by left].
  - destruct (review_default env context w Hc) as (o & w' & Hrun & _).
    rewrite Hrun. cbn [fst]. split; [| discriminate].
    split; [discriminate | intros [Hc' _]; done].
Qed.

Lemma review_event_throws_iff_witness :
  unawaited (snd (pullRequestReviewEventHandler (env_create Thrown)
                    (sample_review "submitted" "approved" "edgarHzg" "edgarHzg") initial))
    = [].
Proof.
  apply (proj2 (review_event_throws_iff (env_create Thrown)
                  (sample_review "submitted" "approved" "edgarHzg" "edgarHzg") initial)).
  reflexivity.
Defined.

(** X6: what the registrations make of review events.  A completed and
    successful check run is created exactly for a submitted review that is
    approved and sent by a QE user; a dismissed review always queues a check
    run; and a review event with any other action, [edited] included, runs
    no handler at all. *)
Theorem review_events_registered (env : Env) (context : ReviewContext) (w : World) :
  (trace (snd (on_event env (PullRequestReviewEvent context) w))
     = trace w ++ [ChecksCreate (rvc_repo context) "Kiali - PR" (rvc_head_sha context)
                     completed (Some success)]
   <-> rvc_action context = "submitted"
       /\ rvc_review_state context = "approved"
       /\ rvc_sender_login context ∈ qeUsers)
  /\ (rvc_action context = "dismissed" ->
      trace (snd (on_event env (PullRequestReviewEvent context) w))
        = trace w ++ [ChecksCreate (rvc_repo context) "Kiali - PR" (rvc_head_sha context)
                        queued None])
  /\ (rvc_action context <> "dismissed" -> rvc_action context <> "submitted" ->
      on_event env (PullRequestReviewEvent context) w = (Returned tt, w)).
Proof.
  cbn [on_event]. split; [| split].
  - destruct (String.eqb_spec (rvc_action context) "dismissed") as [Hd | Hd];
      [| destruct (String.eqb_spec (rvc_action context) "submitted") as [Hs | Hs]];
      cbn [orb].
    + assert (~ approved_by_qe_sender context) as Hc.
      { intros ([He | He] & _); rewrite Hd in He; discriminate. }
      destruct (review_default env context w Hc) as (o & w' & Hrun & Htr & _).
      rewrite Hrun. cbn [snd]. rewrite Htr. split.
      * intros Heq. apply app_inv_head in Heq. discriminate.
      * intros (Hs & _). rewrite Hd in Hs. discriminate.
    + destruct (approved_by_qe_sender_dec context) as [Hc | Hc].
      * destruct (review_shortcut env context w Hc) as (o & w' & Hrun & Htr & _).
        rewrite Hrun. cbn [snd]. split; [| done].
        intros _. destruct Hc as (_ & Hst & Hqe). done.
      * destruct (review_default env context w Hc) as (o & w' & Hrun & Htr & _).
        rewrite Hrun. cbn [snd]. rewrite Htr. split.
        -- intros Heq. apply app_inv_head in Heq. discriminate.
        -- intros (_ & Hst & Hqe). exfalso. apply Hc. unfold approved_by_qe_sender. tauto.
    + cbn [ret snd trace]. split.
      * intros Heq. rewrite <- (app_nil_r (trace w)) in Heq at 1.
        apply app_inv_head in Heq. discriminate.
      * intros (Hs' & _). done.
  - intros Hd. rewrite Hd. cbn [String.eqb Ascii.eqb Bool.eqb andb orb].
    assert (~ approved_by_qe_sender context) as Hc.
    { intros ([He | He] & _); rewrite Hd in He; discriminate. }
    destruct (review_default env context w Hc) as (o & w' & Hrun & Htr & _).
    by rewrite Hrun.
  - intros Hd Hs. apply String.eqb_neq in Hd, Hs. rewrite Hd, Hs. reflexivity.
Qed.

Lemma review_events_registered_witness :
  trace (snd (on_event env_approved
                (PullRequestReviewEvent
                   (sample_review "dismissed" "approved" "edgarHzg" "edgarHzg")) initial))
    = [ChecksCreate sample_repo "Kiali - PR" "c0ffee" queued None]
  /\ on_event env_approved
       (PullRequestReviewEvent (sample_review "edited" "approved" "edgarHzg" "edgarHzg"))
       initial
     = (Returned tt, initial).
Proof.
  split.
  - apply (proj1 (proj2 (review_events_registered env_approved
                           (sample_review "dismissed" "approved" "edgarHzg" "edgarHzg")
                           initial))).
    reflexivity.
  - apply (proj2 (proj2 (review_events_registered env_approved
                           (sample_review "edited" "approved" "edgarHzg" "edgarHzg")
                           initial))); discriminate.
Defined.

(** ** Further properties: the verdict *)

(** A recorded state comes from the mapping one started with or from a
    review that was folded in. *)
Lemma foldl_record_review_origin (vals : list Review) (prReviews : gmap string string)
    (user s : string) :
  foldl record_review prReviews vals !! user = Some s ->
  prReviews !! user = Some s
  \/ exists val, val ∈ vals /\ user_login val = user /\ state val = s.
Proof.
  revert prReviews. induction vals as [|v vals IH]; intros m; [by left |].
  cbn [foldl]. intros H. apply IH in H as [H | (val & Hin & Hval)].
  - unfold record_review in H. destruct (String.eqb (user_login v) "__proto__"); [by left |].
    rewrite lookup_insert in H. case_decide as Hlogin; [| by left].
    injection H as <-. right. exists v. split; [by left | done].
  - right. exists val. split; [by right | done].
Qed.

(** X10: approvals from outside the QE list never let the check pass.  In
    an evaluation that reaches the conclusion step, if no delivered review
    is an [APPROVED] by a login of the QE list, the check run is finalized
    with [failure], whoever else approved. *)
Theorem outsider_approvals_do_not_pass (env : Env) (context : CheckRunContext)
    (pull_requests : list PrRef) (w : World) :
  reaches_conclusion env context pull_requests ->
  Forall (fun val => user_login val ∈ qeUsers -> state val ≠ "APPROVED")
         (all_reviews env (crc_repo context) pull_requests) ->
  exists w',
    doChecks env context w = (Returned tt, w')
    /\ trace w' = trace w ++ evaluation_calls env context pull_requests failure.
Proof.
  intros Hreach Hnone.
  destruct (doChecks_evaluates env context pull_requests w Hreach) as (w' & Hrun & Htr & _).
  exists w'. split; [exact Hrun |].
  assert (conclude qeUsers (review_states env (crc_repo context) pull_requests) = failure)
    as Hfail.
  { apply conclude_failure. intros (user & Hqe & Hap).
    apply foldl_record_review_origin in Hap as [Hap | (val & Hin & <- & Hst)].
    - by rewrite lookup_empty in Hap.
    - rewrite Forall_forall in Hnone. by apply (Hnone val Hin). }
  by rewrite Hfail in Htr.
Qed.

Lemma outsider_approvals_do_not_pass_witness :
  exists w',
    doChecks env_outsider_approved sample_check_run initial = (Returned tt, w')
    /\ trace w' = evaluation_calls env_outsider_approved sample_check_run [mkPrRef 1] failure.
Proof.
  apply (outsider_approvals_do_not_pass env_outsider_approved sample_check_run
           [mkPrRef 1] initial).
  - sample_reaches.
  - repeat constructor; cbn; intros Hin; [| discriminate].
    apply includes_spec in Hin. discriminate.
Defined.

(** X11: for a QE user the verdict looks at the last review delivered for
    that login only.  In an evaluation that reaches the conclusion step, if
    the last delivered review of QE user [R] has state [s], then [s] is the
    state recorded for [R], [R] counts as approving exactly when [s] is
    [APPROVED], and in that case the check run is finalized with [success],
    whatever [R] or anybody else said before. *)
Theorem last_review_of_qe_user_decides (env : Env) (context : CheckRunContext)
    (pull_requests : list PrRef) (w : World)
    (R s : string) (before after : list Review) :
  reaches_conclusion env context pull_requests ->
  R ∈ qeUsers ->
  all_reviews env (crc_repo context) pull_requests = before ++ mkReview R s :: after ->
  Forall (fun val => user_login val ≠ R) after ->
  review_states env (crc_repo context) pull_requests !! R = Some s
  /\ (approved_by (review_states env (crc_repo context) pull_requests) R = true
      <-> s = "APPROVED")
  /\ (s = "APPROVED" ->
      exists w',
        doChecks env context w = (Returned tt, w')
        /\ trace w' = trace w ++ evaluation_calls env context pull_requests success).
Proof.
  intros Hreach HR Hall Hafter.
  assert (review_states env (crc_repo context) pull_requests !! R = Some s) as Hrec.
  { unfold review_states. rewrite Hall.
    apply (foldl_record_review_last before after (mkReview R s)).
    - by apply qeUsers_not_proto.
    - exact Hafter. }
  split; [exact Hrec |]. split.
  - rewrite approved_by_spec, Hrec. split; congruence.
  - intros ->.
    destruct (doChecks_evaluates env context pull_requests w Hreach) as (w' & Hrun & Htr & _).
    exists w'. split; [exact Hrun |].
    assert (conclude qeUsers (review_states env (crc_repo context) pull_requests) = success)
      as Hok by (apply conclude_success; by exists R).
    by rewrite Hok in Htr.
Qed.

Lemma last_review_of_qe_user_decides_witness :
  exists w',
    doChecks env_reapproved sample_check_run initial = (Returned tt, w')
    /\ trace w' = evaluation_calls env_reapproved sample_check_run [mkPrRef 1] success.
Proof.
  apply (last_review_of_qe_user_decides env_reapproved sample_check_run [mkPrRef 1] initial
           "edgarHzg" "APPROVED"
           [mkReview "edgarHzg" "CHANGES_REQUESTED"] [mkReview "bob" "CHANGES_REQUESTED"]).
  - sample_reaches.
  - apply edgarHzg_is_qe.
  - reflexivity.
  - repeat constructor. discriminate.
  - reflexivity.
Defined.

(** X9: a commit without pull requests fails the check.  When the check
    run is owned and queued, the lookup answers with no pull request and the
    [in_progress] update succeeds, the handler makes three requests: the
    lookup, the [in_progress] update and the [completed] update with
    [failure]. *)
Theorem no_pull_requests_fails (env : Env) (context : CheckRunContext) (w : World) :
  owned env (check_run context) ->
  cr_status (check_run context) = "queued" ->
  getOrQueryPrsForCommit env (crc_repo context) (cr_head_sha (check_run context))
    (cr_pull_requests (check_run context)) = Returned [] ->
  update_ok env (crc_repo context) (cr_id (check_run context)) ->
  exists w',
    doChecks env context w = (Returned tt, w')
    /\ trace w' = trace w
         ++ [PrsForCommit (crc_repo context) (cr_head_sha (check_run context))
               (cr_pull_requests (check_run context));
             ChecksUpdate (crc_repo context) (cr_id (check_run context)) in_progress None;
             ChecksUpdate (crc_repo context) (cr_id (check_run context)) completed
               (Some failure)].
Proof.
  intros Hown Hq Hlook Hupd.
  assert (reaches_conclusion env context []) as Hreach by (by constructor).
  destruct (doChecks_evaluates env context [] w Hreach) as (w' & Hrun & Htr & _).
  exists w'. split; [exact Hrun | exact Htr].
Qed.

Lemma no_pull_requests_fails_witness :
  exists w',
    doChecks env_no_prs sample_check_run initial = (Returned tt, w')
    /\ trace w'
       = [PrsForCommit sample_repo "c0ffee" [];
          ChecksUpdate sample_repo 99 in_progress None;
          ChecksUpdate sample_repo 99 completed (Some failure)].
Proof.
  apply (no_pull_requests_fails env_no_prs sample_check_run initial).
  - by left.
  - reflexivity.
  - reflexivity.
  - eexists. split; reflexivity.
Defined.

(** ** Further properties: every run of [doChecks] *)

Lemma check_updates_app (l1 l2 : list Call) :
  check_updates (l1 ++ l2) = check_updates l1 ++ check_updates l2.
Proof. apply flat_map_app. Qed.

Lemma check_updates_pulls_get (r : Repo) (prs : list PrRef) :
  check_updates (map (fun pr => PullsGet r (number pr)) prs) = [].
Proof. induction prs as [|pr prs IH]; [reflexivity | exact IH]. Qed.

Lemma check_updates_list_reviews (r : Repo) (calls : list Call) :
  Forall (fun c => exists n, c = PullsListReviews r n) calls -> check_updates calls = [].
Proof.
  induction 1 as [|c calls (n & ->) _ IH]; [reflexivity | exact IH].
Qed.

Lemma botPrLoop_calls (env : Env) (context : CheckRunContext)
    (pull_requests : list PrRef) (w : World) :
  exists o w' fetched,
    botPrLoop env context pull_requests w = (o, w')
    /\ fetched `prefix_of` pull_requests
    /\ trace w' = trace w ++ map (fun pr => PullsGet (crc_repo context) (number pr)) fetched
    /\ unawaited w' = unawaited w
    /\ (o = Returned Normal
        \/ (o = Returned (ReturnPromise (markBotPrAsOk env context))
            /\ KIALI_BOT_USER env <> None)
        \/ o = Thrown).
Proof.
  revert w. induction pull_requests as [|pr prs IH]; intros w.
  - exists (Returned Normal), w, []. cbn. rewrite app_nil_r. by repeat split; [| left].
  - cbn [botPrLoop]. unfold bind at 1. unfold call at 1.
    destruct (pulls_get env (crc_repo context) (number pr)) as [resp|].
    + unfold bind at 1.
      match goal with
      | |- context [run_check ?e ?w0] =>
          destruct (run_check_cases e w0) as [[Hthrow Hrun] | [Hthrow Hrun]]; rewrite Hrun
      end.
      * case_bool_decide as Hbot.
        -- eexists _, _, [pr]. split; [reflexivity |]. cbn [trace unawaited map].
           split; [by apply prefix_cons, prefix_nil |]. repeat split.
           right. left. split; [reflexivity |]. by rewrite <- Hbot.
        -- match goal with
           | |- context [botPrLoop env context prs ?w0] =>
               destruct (IH w0) as (o & w' & fetched & Hloop & Hpre & Htr & Hun & Ho)
           end.
           exists o, w', (pr :: fetched). split; [exact Hloop |].
           split; [by apply prefix_cons |].
           cbn [trace unawaited map] in *. rewrite Htr, <- app_assoc. done.
      * eexists _, _, [pr]. split; [reflexivity |]. cbn [trace unawaited map].
        split; [by apply prefix_cons, prefix_nil |]. repeat split. by right; right.
    + eexists _, _, [pr]. split; [reflexivity |]. cbn [trace unawaited map].
      split; [by apply prefix_cons, prefix_nil |]. repeat split. by right; right.
Qed.

Lemma pagesLoop_calls (env : Env) (r : Repo) (n : Z)
    (pages : list (Outcome (Response (list Review))))
    (prReviews : gmap string string) (w : World) :
  exists o w' calls,
    pagesLoop env r n pages prReviews w = (o, w')
    /\ trace w' = trace w ++ calls
    /\ unawaited w' = unawaited w
    /\ Forall (fun c => exists k, c = PullsListReviews r k) calls
    /\ (Exists (page_fails env) pages -> o = Thrown).
Proof.
  revert prReviews w. induction pages as [|page pages IH]; intros m w.
  - eexists _, w, []. cbn. rewrite app_nil_r. repeat split; [constructor |].
    intros H. inversion H.
  - cbn [pagesLoop]. unfold bind at 1. unfold call at 1. destruct page as [resp|].
    + unfold bind at 1.
      match goal with
      | |- context [run_check ?e ?w0] =>
          destruct (run_check_cases e w0) as [[Hthrow Hrun] | [Hthrow Hrun]]; rewrite Hrun
      end.
      * match goal with
        | |- context [pagesLoop env r n pages ?m0 ?w0] =>
            destruct (IH m0 w0) as (o & w' & calls & Hloop & Htr & Hun & Hcalls & Hfail)
        end.
        exists o, w', (PullsListReviews r n :: calls). split; [exact Hloop |].
        cbn [trace unawaited] in *. rewrite Htr, <- app_assoc.
        repeat split; [done | by constructor; [eexists |] |].
        intros Hex. apply Hfail. inversion Hex as [? ? Hhd | ? ? Htl]; subst; [| done].
        destruct Hhd as [[=] | (resp' & [= <-] & Hthrow')]. congruence.
      * eexists _, _, [PullsListReviews r n]. split; [reflexivity |].
        cbn [trace unawaited]. repeat split. by repeat constructor; eexists.
    + eexists _, _, [PullsListReviews r n]. split; [reflexivity |].
      cbn [trace unawaited]. repeat split. by repeat constructor; eexists.
Qed.

Lemma reviewsLoop_calls (env : Env) (r : Repo) (pull_requests : list PrRef)
    (prReviews : gmap string string) (w : World) :
  exists o w' calls,
    reviewsLoop env r pull_requests prReviews w = (o, w')
    /\ trace w' = trace w ++ calls
    /\ unawaited w' = unawaited w
    /\ Forall (fun c => exists k, c = PullsListReviews r k) calls
    /\ (Exists (fun pr => Exists (page_fails env) (pulls_listReviews env r (number pr)))
               pull_requests -> o = Thrown).
Proof.
  revert prReviews w. induction pull_requests as [|pr prs IH]; intros m w.
  - eexists _, w, []. cbn. rewrite app_nil_r. repeat split; [constructor |].
    intros H. inversion H.
  - cbn [reviewsLoop]. unfold bind at 1.
    destruct (pagesLoop_calls env r (number pr) (pulls_listReviews env r (number pr)) m w)
      as (o1 & w1 & calls1 & Hpages & Htr1 & Hun1 & Hcalls1 & Hfail1).
    rewrite Hpages. destruct o1 as [m1|].
    + destruct (IH m1 w1) as (o & w' & calls & Hloop & Htr & Hun & Hcalls & Hfail).
      exists o, w', (calls1 ++ calls). split; [exact Hloop |].
      rewrite Htr, Htr1, <- app_assoc. repeat split; [congruence | by apply Forall_app |].
      intros Hex. apply Hfail. inversion Hex as [? ? Hhd | ? ? Htl]; subst; [| done].
      by apply Hfail1 in Hhd.
    + exists Thrown, w1, calls1. done.
Qed.

Lemma in_scope_pulls_get (context : CheckRunContext) (prs : list PrRef) :
  Forall (in_scope context) (map (fun pr => PullsGet (crc_repo context) (number pr)) prs).
Proof. induction prs; constructor; [reflexivity | assumption]. Qed.

Lemma in_scope_list_reviews (context : CheckRunContext) (calls : list Call) :
  Forall (fun c => exists k, c = PullsListReviews (crc_repo context) k) calls ->
  Forall (in_scope context) calls.
Proof. induction 1 as [|c calls (k & ->) _ IH]; constructor; [reflexivity | exact IH]. Qed.

(** What the [try] block of [doChecks] can do, whatever the API does. *)
Lemma doChecks_try_calls (env : Env) (context : CheckRunContext) (w : World) :
  exists o w' calls,
    doChecks_try env context w = (o, w')
    /\ trace w' = trace w ++ calls
    /\ unawaited w' = unawaited w
    /\ Forall (in_scope context) calls
    /\ ((o = Returned Normal
         /\ exists c, check_updates calls = [(in_progress, None); (completed, Some c)])
        \/ (o = Returned (ReturnPromise (markBotPrAsOk env context))
            /\ KIALI_BOT_USER env <> None
            /\ check_updates calls = [])
        \/ (o = Thrown
            /\ (check_updates calls = []
                \/ check_updates calls = [(in_progress, None)]
                \/ exists c,
                     check_updates calls = [(in_progress, None); (completed, Some c)]))).
Proof.
  unfold doChecks_try. cbv zeta.
  set (r := crc_repo context). set (cr := check_run context).
  set (lookup := PrsForCommit r (cr_head_sha cr) (cr_pull_requests cr)).
  assert (in_scope context lookup) as Hlookup by done.
  unfold bind at 1. unfold call at 1.
  destruct (getOrQueryPrsForCommit env r (cr_head_sha cr) (cr_pull_requests cr)) as [prs|].
  2: { eexists Thrown, _, [lookup]. split; [reflexivity |]. cbn [trace unawaited].
       repeat split; [by constructor |]. right. right. split; [done | by left]. }
  unfold bind at 1.
  match goal with
  | |- context [botPrLoop env context prs ?w0] =>
      destruct (botPrLoop_calls env context prs w0)
        as (o1 & w1 & fetched & Hloop & _ & Htr1 & Hun1 & Ho1)
  end.
  rewrite Hloop. cbn [trace unawaited] in Htr1, Hun1.
  set (gets := map (fun pr => PullsGet (crc_repo context) (number pr)) fetched) in *.
  assert (Forall (in_scope context) (lookup :: gets)) as Hgets.
  { constructor; [done | apply in_scope_pulls_get]. }
  assert (check_updates (lookup :: gets) = []) as Hnone.
  { cbn. apply check_updates_pulls_get. }
  assert (trace w1 = trace w ++ lookup :: gets) as Htr1'.
  { rewrite Htr1, <- app_assoc. done. }
  clear Htr1. destruct Ho1 as [-> | [[-> Hbot] | ->]].
  2: { exists (Returned (ReturnPromise (markBotPrAsOk env context))), w1, (lookup :: gets).
       split; [reflexivity |]. repeat split; try done. right. left. done. }
  2: { exists Thrown, w1, (lookup :: gets). split; [reflexivity |].
       repeat split; try done. right. right. split; [done | by left]. }
  set (start := ChecksUpdate r (cr_id cr) in_progress None).
  assert (in_scope context start) as Hstart by done.
  unfold bind at 1. unfold call at 1.
  assert (Forall (in_scope context) ((lookup :: gets) ++ [start])) as Hscope2.
  { apply Forall_app. split; [done | by constructor]. }
  assert (check_updates ((lookup :: gets) ++ [start]) = [(in_progress, None)]) as Hupd2.
  { rewrite check_updates_app, Hnone. reflexivity. }
  assert (trace w1 ++ [start] = trace w ++ ((lookup :: gets) ++ [start])) as Htr2.
  { rewrite Htr1', <- app_assoc. done. }
  destruct (checks_update env r (cr_id cr) in_progress None) as [upd|].
  2: { eexists Thrown, _, _. split; [reflexivity |]. cbn [trace unawaited].
       split; [exact Htr2 |]. repeat split; try done. right. right. split; [done |].
       right. by left. }
  unfold bind at 1.
  match goal with
  | |- context [run_check ?e ?w0] =>
      destruct (run_check_cases e w0) as [[Hthrow Hrun] | [Hthrow Hrun]]; rewrite Hrun
  end.
  2: { eexists Thrown, _, _. split; [reflexivity |]. cbn [trace unawaited].
       split; [exact Htr2 |]. repeat split; try done. right. right. split; [done |].
       right. by left. }
  unfold bind at 1. unfold findQeUsers at 1. cbn [ret]. unfold bind at 1.
  match goal with
  | |- context [reviewsLoop env r prs ∅ ?w0] =>
      destruct (reviewsLoop_calls env r prs ∅ w0)
        as (o3 & w3 & rcalls & Hrev & Htr3 & Hun3 & Hrcalls & _)
  end.
  rewrite Hrev. cbn [trace unawaited] in Htr3, Hun3.
  assert (Forall (in_scope context) (((lookup :: gets) ++ [start]) ++ rcalls)) as Hscope3.
  { apply Forall_app. split; [done | by apply in_scope_list_reviews]. }
  assert (check_updates (((lookup :: gets) ++ [start]) ++ rcalls) = [(in_progress, None)])
    as Hupd3.
  { rewrite check_updates_app, Hupd2, (check_updates_list_reviews r) by done. reflexivity. }
  assert (trace w3 = trace w ++ (((lookup :: gets) ++ [start]) ++ rcalls)) as Htr3'.
  { rewrite Htr3, Htr2, <- app_assoc. done. }
  clear Htr3. destruct o3 as [prReviews|].
  2: { exists Thrown, w3, (((lookup :: gets) ++ [start]) ++ rcalls).
       split; [reflexivity |]. repeat split; try done; [congruence |].
       right. right. split; [done |]. right. by left. }
  set (finish := ChecksUpdate r (cr_id cr) completed (Some (conclude qeUsers prReviews))).
  assert (in_scope context finish) as Hfinish by done.
  assert (Forall (in_scope context) ((((lookup :: gets) ++ [start]) ++ rcalls) ++ [finish]))
    as Hscope4.
  { apply Forall_app. split; [done | by constructor]. }
  assert (check_updates ((((lookup :: gets) ++ [start]) ++ rcalls) ++ [finish])
          = [(in_progress, None); (completed, Some (conclude qeUsers prReviews))]) as Hupd4.
  { rewrite check_updates_app, Hupd3. reflexivity. }
  assert (trace w3 ++ [finish]
          = trace w ++ ((((lookup :: gets) ++ [start]) ++ rcalls) ++ [finish])) as Htr4.
  { rewrite Htr3', <- app_assoc. done. }
  unfold bind at 1. unfold call at 1.
  destruct (checks_update env r (cr_id cr) completed _) as [fin|].
  2: { eexists Thrown, _, _. split; [reflexivity |]. cbn [trace unawaited].
       split; [exact Htr4 |]. repeat split; try done; [congruence |].
       right. right. split; [done |]. right. right. by eexists. }
  unfold bind at 1.
  match goal with
  | |- context [run_check ?e ?w0] =>
      destruct (run_check_cases e w0) as [[Hthrow' Hrun'] | [Hthrow' Hrun']]; rewrite Hrun'
  end.
  - eexists (Returned Normal), _, _. split; [reflexivity |]. cbn [trace unawaited].
    split; [exact Htr4 |]. repeat split; try done; [congruence |].
    left. split; [done | by eexists].
  - eexists Thrown, _, _. split; [reflexivity |]. cbn [trace unawaited].
    split; [exact Htr4 |]. repeat split; try done; [congruence |].
    right. right. split; [done |]. right. right. by eexists.
Qed.

Lemma doChecks_calls (env : Env) (context : CheckRunContext) (w : World) :
  exists o w' calls,
    doChecks env context w = (o, w')
    /\ trace w' = trace w ++ calls
    /\ unawaited w' = unawaited w
    /\ Forall (in_scope context) calls
    /\ (check_updates calls = []
        \/ (check_updates calls = [(completed, Some success)] /\ KIALI_BOT_USER env <> None)
        \/ check_updates calls = [(in_progress, None)]
        \/ exists c, check_updates calls = [(in_progress, None); (completed, Some c)])
    /\ (o = Thrown -> check_updates calls = [(completed, Some success)]).
Proof.
  assert (forall w0 : World,
            trace w0 = trace w ->
            unawaited w0 = unawaited w ->
            exists o w' calls,
              (Returned tt, w0) = (o, w')
              /\ trace w' = trace w ++ calls
              /\ unawaited w' = unawaited w
              /\ Forall (in_scope context) calls
              /\ (check_updates calls = []
                  \/ (check_updates calls = [(completed, Some success)]
                      /\ KIALI_BOT_USER env <> None)
                  \/ check_updates calls = [(in_progress, None)]
                  \/ exists c,
                       check_updates calls = [(in_progress, None); (completed, Some c)])
              /\ (o = Thrown -> check_updates calls = [(completed, Some success)]))
    as Hidle.
  { intros w0 Htr Hun. exists (Returned tt), w0, []. split; [reflexivity |].
    split; [by rewrite app_nil_r |]. split; [exact Hun |]. split; [constructor |].
    split; [by left | discriminate]. }
  unfold doChecks. cbv zeta. unfold bind at 1. unfold isOwnedCheckRun.
  destruct (_ && _); [by apply Hidle |].
  cbn [ret negb]. destruct (String.eqb _ _); cbn [negb]; [| by apply Hidle].
  clear Hidle. unfold bind at 1. unfold try_catch.
  destruct (doChecks_try_calls env context w)
    as (o & w1 & calls & Htry & Htr & Hun & Hscope & Hcases).
  rewrite Htry.
  destruct Hcases as [(-> & c & Hupd) | [(-> & Hbot & Hupd) | (-> & Hupd)]].
  - exists (Returned tt), w1, calls. split; [reflexivity |].
    split; [exact Htr |]. split; [exact Hun |]. split; [exact Hscope |].
    split; [| discriminate]. right. right. right. by exists c.
  - cbn [settle].
    destruct (settle_markBotPrAsOk env context w1) as (o & w' & Hrun & Htr' & Hun' & _).
    exists o, w',
      (calls ++ [ChecksUpdate (crc_repo context) (cr_id (check_run context))
                   completed (Some success)]).
    assert (check_updates
              (calls ++ [ChecksUpdate (crc_repo context) (cr_id (check_run context))
                           completed (Some success)])
            = [(completed, Some success)]) as Hupd'.
    { rewrite check_updates_app, Hupd. reflexivity. }
    split; [exact Hrun |]. split; [by rewrite Htr', Htr, <- app_assoc |].
    split; [congruence |].
    split; [apply Forall_app; split; [done | by repeat constructor] |].
    split; [by right; left | done].
  - eexists (Returned tt), _, calls. split; [reflexivity |]. cbn [trace unawaited].
    split; [exact Htr |]. split; [exact Hun |]. split; [exact Hscope |].
    split; [| discriminate].
    destruct Hupd as [H | [H | H]]; [by left | by right; right; left | by right; right; right].
Qed.

(** X7: whatever the event and whatever the API does, [doChecks] stays
    within its check run: every request it makes concerns the repository of
    the event, every update addresses the check run of the event, no check
    run is ever created, and nothing is started without being awaited. *)
Theorem doChecks_stays_in_scope (env : Env) (context : CheckRunContext) (w : World) :
  exists calls,
    trace (snd (doChecks env context w)) = trace w ++ calls
    /\ Forall (in_scope context) calls
    /\ unawaited (snd (doChecks env context w)) = unawaited w.
Proof.
  destruct (doChecks_calls env context w) as (o & w' & calls & Hrun & Htr & Hun & Hscope & _).
  exists calls. by rewrite Hrun.
Qed.

(** X8: the life cycle of the check run.  In one run of [doChecks] the
    updates of the check run are, in order, one of: none; [completed] with
    [success] alone (a pull request of the bot); [in_progress] alone (the
    evaluation was interrupted); or [in_progress] followed by one
    [completed].  Nothing follows a [completed] update and [completed] is
    never sent twice. *)
Theorem doChecks_update_sequence (env : Env) (context : CheckRunContext) (w : World) :
  exists calls,
    trace (snd (doChecks env context w)) = trace w ++ calls
    /\ (check_updates calls = []
        \/ check_updates calls = [(completed, Some success)]
        \/ check_updates calls = [(in_progress, None)]
        \/ exists c, check_updates calls = [(in_progress, None); (completed, Some c)]).
Proof.
  destruct (doChecks_calls env context w) as (o & w' & calls & Hrun & Htr & _ & _ & Hupd & _).
  exists calls. rewrite Hrun. split; [exact Htr |].
  destruct Hupd as [H | [[H _] | [H | H]]]; tauto.
Qed.

(** X12: when no bot user is configured ([KIALI_BOT_USER] is undefined),
    no pull request counts as authored by the bot: whatever the API does,
    [doChecks] returns without throwing, and it never completes the check
    run without having marked it [in_progress] first. *)
Theorem doChecks_without_bot_user (env : Env) (context : CheckRunContext) (w : World) :
  KIALI_BOT_USER env = None ->
  fst (doChecks env context w) = Returned tt
  /\ exists calls,
       trace (snd (doChecks env context w)) = trace w ++ calls
       /\ (check_updates calls = []
           \/ check_updates calls = [(in_progress, None)]
           \/ exists c, check_updates calls = [(in_progress, None); (completed, Some c)]).
Proof.
  intros Hnone.
  destruct (doChecks_calls env context w)
    as (o & w' & calls & Hrun & Htr & _ & _ & Hupd & Hthrown).
  rewrite Hrun. cbn [fst snd].
  assert (check_updates calls <> [(completed, Some success)]) as Hnobot.
  { intros Hbot. destruct Hupd as [H | [[_ H] | [H | (c & H)]]]; congruence. }
  split.
  - destruct o as [[]|]; [reflexivity |]. exfalso. by apply Hnobot, Hthrown.
  - exists calls. split; [exact Htr |].
    destruct Hupd as [H | [[H _] | [H | H]]]; tauto.
Qed.

Lemma doChecks_without_bot_user_witness :
  fst (doChecks env_no_bot_user sample_check_run initial) = Returned tt.
Proof.
  apply (doChecks_without_bot_user env_no_bot_user sample_check_run initial). reflexivity.
Defined.

(** ** Further properties: interrupted evaluations *)

Lemma bind_thrown {A B} (m : M A) (k : A -> M B) (w w' : World) :
  m w = (Thrown, w') -> bind m k w = (Thrown, w').
Proof. intros H. unfold bind. by rewrite H. Qed.

(** X14: when the reviews cannot be read, the check run stays
    [in_progress].  If the evaluation gets as far as the [in_progress]
    update and then a page of reviews of some associated pull request fails,
    the handler logs the error and returns; the [in_progress] update is the
    only update it has sent, and the reviews read before the failure are
    discarded. *)
Theorem failed_pagination_leaves_in_progress (env : Env) (context : CheckRunContext)
    (pull_requests : list PrRef) (w : World) :
  owned env (check_run context) ->
  cr_status (check_run context) = "queued" ->
  getOrQueryPrsForCommit env (crc_repo context) (cr_head_sha (check_run context))
    (cr_pull_requests (check_run context)) = Returned pull_requests ->
  Forall (fetch_ok env (crc_repo context)) pull_requests ->
  Forall (fun pr => ~ bot_authored env (crc_repo context) pr) pull_requests ->
  update_ok env (crc_repo context) (cr_id (check_run context)) ->
  Exists (fun pr => Exists (page_fails env)
                      (pulls_listReviews env (crc_repo context) (number pr)))
         pull_requests ->
  exists w' reads lines,
    doChecks env context w = (Returned tt, w')
    /\ trace w' = trace w
         ++ PrsForCommit (crc_repo context) (cr_head_sha (check_run context))
              (cr_pull_requests (check_run context))
         :: map (fun pr => PullsGet (crc_repo context) (number pr)) pull_requests
         ++ ChecksUpdate (crc_repo context) (cr_id (check_run context)) in_progress None
         :: reads
    /\ Forall (fun c => exists k, c = PullsListReviews (crc_repo context) k) reads
    /\ logged w' = lines ++ [mkLog lvl_error "Error performing check_run"].
Proof.
  intros Hown Hq Hlook Hfetch Hnobot (upd & Hupd & Hupdchk) Hfail.
  assert (exists w1 reads,
            doChecks_try env context w = (Thrown, w1)
            /\ trace w1 = trace w
                 ++ PrsForCommit (crc_repo context) (cr_head_sha (check_run context))
                      (cr_pull_requests (check_run context))
                 :: map (fun pr => PullsGet (crc_repo context) (number pr)) pull_requests
                 ++ ChecksUpdate (crc_repo context) (cr_id (check_run context))
                      in_progress None
                 :: reads
            /\ Forall (fun c => exists k, c = PullsListReviews (crc_repo context) k) reads)
    as (w1 & reads & Htry & Htr & Hreads).
  { unfold doChecks_try. cbv zeta. rewrite Hlook. step.
    edestruct (botPrLoop_no_bot env context pull_requests) as (w1 & Hrun1 & Htr1 & Hun1);
      [exact Hfetch | exact Hnobot |].
    step. rewrite Hupd. do 2 step. erewrite bind_returned by reflexivity.
    match goal with
    | |- context [bind (reviewsLoop env ?r pull_requests ∅) _ ?w0] =>
        destruct (reviewsLoop_calls env r pull_requests ∅ w0)
          as (o & w2 & reads & Hrev & Htr2 & _ & Hreads & Hthrown)
    end.
    rewrite (Hthrown Hfail) in Hrev. exists w2, reads.
    split; [by erewrite bind_thrown by exact Hrev |]. split; [| exact Hreads].
    cbn [trace] in *. rewrite Htr2, Htr1, <- !app_assoc. reflexivity. }
  exists (mkWorld (trace w1) (logged w1 ++ [mkLog lvl_error "Error performing check_run"])
                  (unawaited w1)), reads, (logged w1).
  split; [by apply doChecks_catches |]. done.
Qed.

Lemma failed_pagination_leaves_in_progress_witness :
  exists w' reads lines,
    doChecks env_page_fails sample_check_run initial = (Returned tt, w')
    /\ trace w'
       = PrsForCommit sample_repo "c0ffee" []
         :: map (fun pr => PullsGet sample_repo (number pr)) [mkPrRef 1; mkPrRef 2; mkPrRef 3]
         ++ ChecksUpdate sample_repo 99 in_progress None :: reads
    /\ Forall (fun c => exists k, c = PullsListReviews sample_repo k) reads
    /\ logged w' = lines ++ [mkLog lvl_error "Error performing check_run"].
Proof.
  apply (failed_pagination_leaves_in_progress env_page_fails sample_check_run
           [mkPrRef 1; mkPrRef 2; mkPrRef 3] initial).
  - by left.
  - reflexivity.
  - reflexivity.
  - repeat constructor; eexists; split; reflexivity.
  - repeat constructor; intros (resp & Hget & Hlogin); injection Hget as <-; discriminate.
  - eexists. split; reflexivity.
  - apply Exists_cons_tl, Exists_cons_hd. apply Exists_cons_tl, Exists_cons_hd. by left.
Defined.

Lemma botPrLoop_fetch_fails (env : Env) (context : CheckRunContext)
    (before after : list PrRef) (pr : PrRef) (w : World) :
  Forall (fetch_ok env (crc_repo context)) before ->
  Forall (fun p => ~ bot_authored env (crc_repo context) p) before ->
  fetch_fails env (crc_repo context) pr ->
  exists w',
    botPrLoop env context (before ++ pr :: after) w = (Thrown, w')
    /\ trace w' = trace w
         ++ map (fun p => PullsGet (crc_repo context) (number p)) (before ++ [pr])
    /\ unawaited w' = unawaited w.
Proof.
  revert w. induction before as [|p before IH]; intros w Hfetch Hnobot Hfail.
  - cbn [app botPrLoop map]. unfold bind at 1. unfold call at 1.
    destruct Hfail as [-> | (resp & -> & Hthrow)].
    + eexists. split; [reflexivity | done].
    + unfold bind at 1.
      match goal with
      | |- context [run_check ?e ?w0] =>
          destruct (run_check_cases e w0) as [[Hc Hrun] | [Hc Hrun]]; rewrite Hrun
      end; [congruence |].
      eexists. split; [reflexivity | done].
  - inversion Hfetch as [|? ? (resp & Hget & Hchk) Hfetch']; subst.
    inversion Hnobot as [|? ? Hnb Hnobot']; subst.
    cbn [app botPrLoop map]. rewrite Hget. do 2 step.
    case_bool_decide as Hlogin.
    { exfalso. apply Hnb. by exists resp. }
    edestruct IH as (w' & Hrun & Htr & Hun); [exact Hfetch' | exact Hnobot' | exact Hfail |].
    exists w'. rewrite Hrun. split; [done |].
    cbn [trace unawaited] in Htr, Hun. rewrite Htr, <- app_assoc. done.
Qed.

(** X13: when a pull request cannot be fetched, the check run stays
    [queued].  If the fetch of an associated pull request fails before any
    pull request of the bot has been met, the handler logs the error and
    returns without a single update of the check run; the pull requests
    that follow are not fetched, be they authored by the bot or not. *)
Theorem failed_fetch_leaves_queued (env : Env) (context : CheckRunContext)
    (before after : list PrRef) (pr : PrRef) (w : World) :
  owned env (check_run context) ->
  cr_status (check_run context) = "queued" ->
  getOrQueryPrsForCommit env (crc_repo context) (cr_head_sha (check_run context))
    (cr_pull_requests (check_run context)) = Returned (before ++ pr :: after) ->
  Forall (fetch_ok env (crc_repo context)) before ->
  Forall (fun p => ~ bot_authored env (crc_repo context) p) before ->
  fetch_fails env (crc_repo context) pr ->
  exists w' lines,
    doChecks env context w = (Returned tt, w')
    /\ trace w' = trace w
         ++ PrsForCommit (crc_repo context) (cr_head_sha (check_run context))
              (cr_pull_requests (check_run context))
         :: map (fun p => PullsGet (crc_repo context) (number p)) (before ++ [pr])
    /\ logged w' = lines ++ [mkLog lvl_error "Error performing check_run"].
Proof.
  intros Hown Hq Hlook Hfetch Hnobot Hfail.
  assert (exists w1,
            doChecks_try env context w = (Thrown, w1)
            /\ trace w1 = trace w
                 ++ PrsForCommit (crc_repo context) (cr_head_sha (check_run context))
                      (cr_pull_requests (check_run context))
                 :: map (fun p => PullsGet (crc_repo context) (number p)) (before ++ [pr]))
    as (w1 & Htry & Htr).
  { unfold doChecks_try. cbv zeta. rewrite Hlook. step.
    edestruct (botPrLoop_fetch_fails env context before after pr)
      as (w1 & Hrun1 & Htr1 & _); [exact Hfetch | exact Hnobot | exact Hfail |].
    exists w1. split; [by erewrite bind_thrown by exact Hrun1 |].
    cbn [trace] in Htr1. rewrite Htr1, <- app_assoc. reflexivity. }
  exists (mkWorld (trace w1) (logged w1 ++ [mkLog lvl_error "Error performing check_run"])
                  (unawaited w1)), (logged w1).
  split; [by apply doChecks_catches |]. done.
Qed.

Lemma failed_fetch_leaves_queued_witness :
  exists w' lines,
    doChecks env_fetch_fails sample_check_run initial = (Returned tt, w')
    /\ trace w'
       = [PrsForCommit sample_repo "c0ffee" [];
          PullsGet sample_repo 1; PullsGet sample_repo 2]
    /\ logged w' = lines ++ [mkLog lvl_error "Error performing check_run"].
Proof.
  apply (failed_fetch_leaves_queued env_fetch_fails sample_check_run
           [mkPrRef 1] [mkPrRef 3] (mkPrRef 2) initial).
  - by left.
  - reflexivity.
  - reflexivity.
  - repeat constructor; eexists; split; reflexivity.
  - repeat constructor; intros (resp & Hget & Hlogin); injection Hget as <-; discriminate.
  - by left.
Defined.
